(** * mobx-rest: the Model / Collection state-reconciliation engine

    A shallow embedding of [Model.ts] and [Collection.ts].

    - JavaScript values are an inductive type [value]; plain objects are
      finite maps from property names to values, so that lodash's
      [isEqual] (deep, key-order insensitive) is Leibniz equality.
    - Model and Collection instances are mutable objects that point at
      each other.  They live in a [World]: a store of model objects, a
      store of collection objects and lodash's [uniqueId] counter.
    - A request is split at the network boundary: the synchronous part of
      [save] / [destroy] returns the request handed to the transport
      together with the data captured by the promise callbacks; the
      [then] and [catch] callbacks are functions that run on whatever the
      world has become when the promise settles. *)

From stdpp Require Import gmap strings list fin_maps functions pretty.
From Stdlib Require Import ZArith.

#[local] Set Warnings "-register-all".
#[local] Open Scope string_scope.

(** ** JavaScript values *)

Module JS.

Inductive value :=
  | VUndef
  | VNull
  | VBool (b : bool)
  | VNum (n : Z)
  | VStr (s : string)
  | VArr (l : list value)
  | VObj (o : gmap string value).

(** Plain objects: own enumerable string-keyed properties. *)
Abbreviation obj := (gmap string value).

Fixpoint value_eq_dec (a b : value) {struct a} : Decision (a = b).
Proof.
  refine (
    let _ : EqDecision value := value_eq_dec in
    match a, b with
    | VUndef, VUndef => left eq_refl
    | VNull, VNull => left eq_refl
    | VBool x, VBool y => cast_if (decide (x = y))
    | VNum x, VNum y => cast_if (decide (x = y))
    | VStr x, VStr y => cast_if (decide (x = y))
    | VArr x, VArr y => cast_if (decide (x = y))
    | VObj x, VObj y => cast_if (decide (x = y))
    | _, _ => right _
    end); congruence.
Defined.

#[global] Instance value_eq : EqDecision value := value_eq_dec.

(** [o[k]]: reading a missing property yields [undefined]. *)
Definition prop (o : obj) (k : string) : value := default VUndef (o !! k).

(** [ToBoolean]. *)
Definition truthy (v : value) : bool :=
  match v with
  | VUndef | VNull => false
  | VBool b => b
  | VNum n => negb (n =? 0)%Z
  | VStr s => negb (String.eqb s "")
  | VArr _ | VObj _ => true
  end.

Definition is_primitive (v : value) : bool :=
  match v with
  | VArr _ | VObj _ => false
  | _ => true
  end.

(** [a === b].  Primitives compare by value.  Two object or array values
    compare by reference; the operands compared in this library (an
    attribute read from an observable map against a value arriving from
    outside) are never the same reference. *)
Definition strict_eq (a b : value) : bool :=
  is_primitive a && bool_decide (a = b).

(** [typeof v === 'number' || typeof v === 'string'] *)
Definition is_number_or_string (v : value) : bool :=
  match v with
  | VNum _ | VStr _ => true
  | _ => false
  end.

(** String conversion inside a template literal. *)
Fixpoint toString (v : value) : string :=
  match v with
  | VUndef => "undefined"
  | VNull => "null"
  | VBool true => "true"
  | VBool false => "false"
  | VNum n => pretty n
  | VStr s => s
  | VArr l =>
      String.concat ","
        (map (fun x => match x with
                       | VUndef | VNull => ""
                       | _ => toString x
                       end) l)
  | VObj _ => "[object Object]"
  end.

(** [{ ...a, ...b }] *)
Definition spread (a b : obj) : obj := b ∪ a.

(** An optional object argument used as a condition: an object is truthy,
    [undefined] is not. *)
Definition given {A} (x : option A) : bool :=
  match x with Some _ => true | None => false end.

(** An optional object argument that is spread or merged: [undefined]
    contributes no keys. *)
Definition own (x : option obj) : obj := default ∅ x.

End JS.

(** ** lodash *)

Module Lodash.
Import JS.

(** [isEqual]: deep comparison.  Objects are equal when they have the same
    own keys with equal values, arrays when they are equal element-wise. *)
Definition isEqual (a b : value) : bool := bool_decide (a = b).

Definition isPlainObject (v : value) : bool :=
  match v with VObj _ => true | _ => false end.

(** [Object.keys] *)
Definition keys (o : obj) : list string := (map_to_list o).*1.

(** [union]: the unique values of both arrays, first occurrences first. *)
Definition union (xs ys : list string) : list string :=
  xs ++ list_difference ys xs.

(** [difference(array, values)] compares with SameValueZero, which on the
    values modelled here (no NaN) is [===]. *)
Definition difference (array values : list value) : list value :=
  filter (fun x => existsb (strict_eq x) values = false) array.

(** [includes] *)
Definition includes (xs : list string) (x : string) : bool :=
  bool_decide (x ∈ xs).

End Lodash.

(** ** deepmerge *)

Module Deepmerge.
Import JS.

(** [isMergeableObject]: any non-null object, arrays included. *)
Definition isMergeableObject (v : value) : bool :=
  match v with VArr _ | VObj _ => true | _ => false end.

(** [deepmerge(target, source, { arrayMerge })].

    [mergeObject] copies every key of a mergeable target and then, for
    every key of the source, stores the source value when it is not
    mergeable or when [target[key]] is falsy, and the recursive merge
    otherwise.  Cloning is the identity on values.  A target that is not
    an object contributes no keys, and reading [target[key]] from it
    yields [undefined]. *)
Fixpoint deepmerge (arrayMerge : list value -> list value -> list value)
    (target source : value) {struct source} : value :=
  match source with
  | VArr new =>
      match target with
      | VArr old => VArr (arrayMerge old new)
      | _ => source
      end
  | VObj src =>
      match target with
      | VArr _ => source
      | _ =>
          let destination : obj :=
            match target with VObj t => t | _ => ∅ end in
          VObj (merge (fun (s d : option value) =>
                  match s with
                  | None => d
                  | Some sv =>
                      if isMergeableObject sv && truthy (default VUndef d)
                      then Some (deepmerge arrayMerge (default VUndef d) sv)
                      else Some sv
                  end) src destination)
      end
  | _ => source
  end.

(** [deepmerge] of two plain objects, as an object. *)
Definition mergeObject (arrayMerge : list value -> list value -> list value)
    (target source : obj) : obj :=
  merge (fun (s d : option value) =>
    match s with
    | None => d
    | Some sv =>
        if isMergeableObject sv && truthy (default VUndef d)
        then Some (deepmerge arrayMerge (default VUndef d) sv)
        else Some sv
    end) source target.

End Deepmerge.

(** ** Objects and the store *)

Module Store.
Import JS.

(** Addresses of model objects and of collection objects. *)
Abbreviation loc := nat.
Abbreviation cref := nat.

(** The result of a pure function that can throw. *)
Inductive result (A : Type) :=
  | Ok (a : A)
  | Throw (msg : string).
Arguments Ok {A} a.
Arguments Throw {A} msg.

(** What a method that can throw hands back, with the world it leaves
    behind. *)
Inductive outcome (W A : Type) :=
  | Returned (a : A) (w : W)
  | Thrown (msg : string) (w : W).
Arguments Returned {W A} a w.
Arguments Thrown {W A} msg w.

(** The world a method leaves behind, whether it returns or throws. *)
Definition world_of {W A} (x : outcome W A) : W :=
  match x with
  | Returned _ w => w
  | Thrown _ w => w
  end.

(** A [Model] instance.  [primaryKey] and [urlRoot] are the overridable
    members of its class. *)
Record Model := mkModel {
  primaryKey : string;
  urlRoot : option string;
  defaultAttributes : obj;
  attributes : obj;
  committedAttributes : obj;
  optimisticId : string;
  collection : option cref
}.

(** The class a collection builds its members from: [model(attributes)]. *)
Record ModelClass := mkModelClass {
  class_primaryKey : string;
  class_urlRoot : option string
}.

(** A [Collection] instance.  [coll_url] is its [url()] override; [None]
    is the abstract method, which throws. *)
Record Collection := mkCollection {
  models : list loc;
  coll_url : option string;
  model : obj -> ModelClass
}.

Record World := mkWorld {
  objs : loc -> Model;
  colls : cref -> Collection;
  idCounter : nat
}.

Definition with_attributes (a : obj) (m : Model) : Model :=
  mkModel (primaryKey m) (urlRoot m) (defaultAttributes m) a
    (committedAttributes m) (optimisticId m) (collection m).

Definition with_committedAttributes (a : obj) (m : Model) : Model :=
  mkModel (primaryKey m) (urlRoot m) (defaultAttributes m) (attributes m)
    a (optimisticId m) (collection m).

Definition with_collection (c : option cref) (m : Model) : Model :=
  mkModel (primaryKey m) (urlRoot m) (defaultAttributes m) (attributes m)
    (committedAttributes m) (optimisticId m) c.

Definition with_models (ls : list loc) (c : Collection) : Collection :=
  mkCollection ls (coll_url c) (model c).

(** Mutation of the object at an address. *)
Definition update_model (l : loc) (f : Model -> Model) (w : World) : World :=
  mkWorld (<[l := f (objs w l)]> (objs w)) (colls w) (idCounter w).

Definition update_collection (c : cref) (f : Collection -> Collection)
    (w : World) : World :=
  mkWorld (objs w) (<[c := f (colls w c)]> (colls w)) (idCounter w).

(** The member sequence of collection [c]. *)
Definition members (w : World) (c : cref) : list loc := models (colls w c).

(** The world before anything is allocated: every address holds a blank
    object, and the counter of [uniqueId] is at zero. *)
Definition blank_model : Model := mkModel "id" None ∅ ∅ ∅ "" None.

Definition blank_collection : Collection :=
  mkCollection [] None (fun _ => mkModelClass "id" None).

Definition empty_world : World :=
  mkWorld (fun _ => blank_model) (fun _ => blank_collection) 0.

End Store.

(** ** Model.ts *)

Module Model.
Import JS Lodash Deepmerge Store.

Definition dontMergeArrays (_oldArray newArray : list value) : list value :=
  newArray.

(** lodash's [uniqueId('i_')]: bump the counter, append it to the prefix. *)
Definition uniqueId (prefix : string) (w : World) : string * World :=
  let n := S (idCounter w) in
  (prefix +:+ pretty n, mkWorld (objs w) (colls w) n).

(** [new ModelClass(attributes, defaultAttributes)].  The object is
    allocated at the address numbered like its [optimisticId]. *)
Definition new (cls : ModelClass) (attrs defaults : obj) (w : World)
    : loc * World :=
  let '(oid, w1) := uniqueId "i_" w in
  let mergedAttributes := spread defaults attrs in
  let this := idCounter w1 in
  let m := mkModel (class_primaryKey cls) (class_urlRoot cls) defaults
             mergedAttributes mergedAttributes oid None in
  (this, mkWorld (<[this := m]> (objs w1)) (colls w1) (idCounter w1)).

(** [toJS(this.attributes)]: a deep copy, the identity on values. *)
Definition toJS (m : Model) : obj := attributes m.

Definition has (m : Model) (attribute : string) : bool :=
  bool_decide (is_Some (attributes m !! attribute)).

Definition get (m : Model) (attribute : string) : result value :=
  match attributes m !! attribute with
  | Some v => Ok v
  | None => Throw ("Attribute " +:+ attribute +:+ " not found")
  end.

(** [!this.has(pk) || !this.get(pk)]; [get] is only reached when the
    attribute is there. *)
Definition isNew (m : Model) : bool :=
  match attributes m !! primaryKey m with
  | None => true
  | Some v => negb (truthy v)
  end.

(** [this.has(pk) ? this.get(pk) : this.optimisticId] *)
Definition id (m : Model) : value :=
  match attributes m !! primaryKey m with
  | Some v => v
  | None => VStr (optimisticId m)
  end.

Definition getChangedAttributesBetween (source target : obj) : list string :=
  filter (fun key => isEqual (prop source key) (prop target key) = false)
    (union (keys source) (keys target)).

(** [getChangesBetween(source, target)], key by key: a key gets no entry
    when the two sides are deep-equal (it is not among the changed
    attributes), the nested changes when both sides are plain objects, and
    the target's value otherwise.  The recursion goes through the values of
    [source]; the function is only ever called on two objects. *)
Fixpoint getChangesBetween_value (source target : value) {struct source}
    : obj :=
  match source with
  | VObj s =>
      merge (fun (sk tk : option value) =>
        let tv := default VUndef tk in
        match sk with
        | Some sv =>
            if isEqual sv tv then None
            else Some (if isPlainObject sv && isPlainObject tv
                       then VObj (getChangesBetween_value sv tv)
                       else tv)
        | None => if isEqual VUndef tv then None else Some tv
        end) s (match target with VObj t => t | _ => ∅ end)
  | _ => ∅
  end.

Definition getChangesBetween (source target : obj) : obj :=
  getChangesBetween_value (VObj source) (VObj target).

Definition changedAttributes (m : Model) : list string :=
  getChangedAttributesBetween (committedAttributes m) (attributes m).

Definition changes (m : Model) : obj :=
  getChangesBetween (committedAttributes m) (attributes m).

(** [if (attribute)] is false for a missing argument and for [""]. *)
Definition hasChanges (m : Model) (attribute : option string) : bool :=
  match attribute with
  | Some a =>
      if negb (String.eqb a "") then includes (changedAttributes m) a
      else negb (Nat.eqb (length (changedAttributes m)) 0)
  | None => negb (Nat.eqb (length (changedAttributes m)) 0)
  end.

Definition commitChanges (m : Model) : Model :=
  with_committedAttributes (toJS m) m.

Definition discardChanges (m : Model) : Model :=
  with_attributes (committedAttributes m) m.

Definition reset (data : option obj) (m : Model) : Model :=
  with_attributes
    (match data with
     | Some d => spread (defaultAttributes m) d
     | None => defaultAttributes m
     end) m.

(** [this.attributes.merge(data)]: every key of [data] is written. *)
Definition set (data : obj) (m : Model) : Model :=
  with_attributes (data ∪ attributes m) m.

Definition applyPatchChanges (oldAttributes changes : obj) : obj :=
  mergeObject dontMergeArrays oldAttributes changes.

(** A string or [null] used as a condition. *)
Definition nonempty (u : option string) : bool :=
  match u with
  | Some s => negb (String.eqb s "")
  | None => false
  end.

(** [Collection.url()] as the model calls it: abstract unless overridden. *)
Definition collection_url (c : Collection) : result string :=
  match coll_url c with
  | Some u => Ok u
  | None => Throw "You must implement this method"
  end.

Definition url (this : loc) (w : World) : result string :=
  let m := objs w this in
  let root : result (option string) :=
    if negb (nonempty (urlRoot m))
    then match collection m with
         | Some c =>
             match collection_url (colls w c) with
             | Ok u => Ok (Some u)
             | Throw e => Throw e
             end
         | None => Ok (urlRoot m)
         end
    else Ok (urlRoot m) in
  match root with
  | Throw e => Throw e
  | Ok None => Throw "implement `urlRoot` method or `url` on the collection"
  | Ok (Some r) =>
      if negb (nonempty (Some r))
      then Throw "implement `urlRoot` method or `url` on the collection"
      else if isNew m then Ok r
      else match get m (primaryKey m) with
           | Ok v => Ok (r +:+ "/" +:+ toString v)
           | Throw e => Throw e
           end
  end.

(** *** save *)

Record SaveOptions := mkSaveOptions {
  optimistic : bool;
  patch : bool;
  keepChanges : bool
}.

(** [{ optimistic = true, patch = true, keepChanges = false }] *)
Definition defaultSaveOptions : SaveOptions := mkSaveOptions true true false.

Inductive Method := GET | POST | PUT | PATCH | DELETE.

(** The call made on the transport: [apiClient()[method](url, data, ...)]. *)
Record Request := mkRequest {
  req_method : Method;
  req_url : string;
  req_data : obj;
  req_label : string
}.

(** What the promise callbacks of [save] have captured. *)
Record SavePending := mkSavePending {
  save_this : loc;
  save_currentAttributes : obj;
  save_keepChanges : bool
}.

(** The synchronous part of [save(attributes, options)], up to the return
    of the request handle.  The progress callback only writes to the
    request handle and is left out. *)
Definition save (this : loc) (attrs : option obj) (o : SaveOptions)
    (w : World) : outcome World (Request * SavePending) :=
  let m := objs w this in
  let currentAttributes := toJS m in
  let label := if isNew m then "creating" else "updating" in
  let data :=
    if patch o && given attrs && negb (isNew m) then own attrs
    else if patch o && negb (isNew m) then changes m
    else spread currentAttributes (own attrs) in
  let method :=
    if isNew m then POST
    else if patch o then PATCH
    else PUT in
  let w1 :=
    if optimistic o && given attrs
    then update_model this
           (set (if patch o
                 then applyPatchChanges currentAttributes (own attrs)
                 else own attrs)) w
    else w in
  match url this w1 with
  | Throw e => Thrown e w1
  | Ok u =>
      Returned (mkRequest method u data label,
                mkSavePending this currentAttributes (keepChanges o)) w1
  end.

(** The [then] callback of [save], run with the response when the promise
    resolves. *)
Definition save_then (p : SavePending) (data : obj) (w : World) : World :=
  let this := save_this p in
  let changes :=
    getChangesBetween (save_currentAttributes p) (toJS (objs w this)) in
  update_model this
    (fun m =>
       let m1 := commitChanges (set data m) in
       if save_keepChanges p
       then set (applyPatchChanges data changes) m1
       else m1) w.

(** The [catch] callback of [save], run when the promise rejects. *)
Definition save_catch (p : SavePending) (w : World) : World :=
  update_model (save_this p) (set (save_currentAttributes p)) w.

(** *** fetch *)

(** The synchronous part of [fetch({ data, ...otherOptions })]: the GET
    request on [url()], with [data] as the query. *)
Definition fetch (this : loc) (data : option obj) (w : World)
    : outcome World Request :=
  match url this w with
  | Throw e => Thrown e w
  | Ok u => Returned (mkRequest GET u (own data) "fetching") w
  end.

(** The [then] callback of [fetch]: [this.set(data); this.commitChanges()]. *)
Definition fetch_then (this : loc) (data : obj) (w : World) : World :=
  update_model this (fun m => commitChanges (set data m)) w.

(** The [catch] callback of [fetch] does nothing. *)
Definition fetch_catch (this : loc) (w : World) : World := w.

End Model.

(** ** Collection.ts *)

Module Collection.
Import JS Lodash Store.

(** An argument of [remove]: an id or a model instance. *)
Inductive IdOrModel :=
  | AnId (v : value)
  | AModel (l : loc).

(** An argument of [build] and [add]: raw attributes or a model instance. *)
Inductive AttributesOrModel :=
  | Attributes (a : obj)
  | Instance (l : loc).

Record SetOptions := mkSetOptions {
  opt_add : bool;
  opt_change : bool;
  opt_remove : bool
}.

(** [{ add = true, change = true, remove = true }] *)
Definition defaultSetOptions : SetOptions := mkSetOptions true true true.

Definition length (c : cref) (w : World) : nat := List.length (members w c).

Definition isEmpty (c : cref) (w : World) : bool :=
  Nat.eqb (length c w) 0.

(** [this.models.map(item => item.id).filter(Boolean)] *)
Definition _ids (c : cref) (w : World) : list value :=
  List.filter truthy (map (fun item => Model.id (objs w item)) (members w c)).

(** [this.models.find(item => item.id === id)] *)
Definition get (c : cref) (id : value) (w : World) : option loc :=
  List.find (fun item => strict_eq (Model.id (objs w item)) id) (members w c).

(** [Array.prototype.indexOf]: the first position, or [-1]. *)
Fixpoint indexOf (x : loc) (xs : list loc) : Z :=
  match xs with
  | [] => -1
  | y :: ys =>
      if Nat.eqb y x then 0
      else let i := indexOf x ys in
           if (i <? 0)%Z then -1 else (i + 1)%Z
  end.

(** [xs.splice(start, 1)]: a negative [start] counts from the end. *)
Definition splice1 (start : Z) (xs : list loc) : list loc :=
  let len := Z.of_nat (List.length xs) in
  let from := if (start <? 0)%Z then Z.max (len + start) 0 else start in
  delete (Z.to_nat from) xs.

(** The body of the loop of [remove].  [console.warn] has no effect on
    the state. *)
Definition remove_one (c : cref) (id : IdOrModel) (w : World) : World :=
  let found : option loc :=
    match id with
    | AModel l =>
        if bool_decide (collection (objs w l) = Some c) then Some l else None
    | AnId v =>
        if is_number_or_string v then get c v w else None
    end in
  match found with
  | None => w
  | Some l =>
      let w1 :=
        update_collection c
          (fun co => with_models (splice1 (indexOf l (models co)) (models co)) co)
          w in
      update_model l (with_collection None) w1
  end.

Definition remove (c : cref) (ids : list IdOrModel) (w : World) : World :=
  foldl (fun w id => remove_one c id w) w ids.

(** [build(attributes)] *)
Definition build (c : cref) (a : AttributesOrModel) (w : World)
    : loc * World :=
  match a with
  | Instance l => (l, update_model l (with_collection (Some c)) w)
  | Attributes attrs =>
      let ModelClass := model (colls w c) attrs in
      let '(l, w1) := Model.new ModelClass attrs ∅ w in
      (l, update_model l (with_collection (Some c)) w1)
  end.

(** [data.map(m => this.build(m))], threading the world. *)
Fixpoint build_all (c : cref) (data : list AttributesOrModel) (w : World)
    : list loc * World :=
  match data with
  | [] => ([], w)
  | a :: rest =>
      let '(l, w1) := build c a w in
      let '(ls, w2) := build_all c rest w1 in
      (l :: ls, w2)
  end.

(** [add(data)], for [data] already an array. *)
Definition add (c : cref) (data : list AttributesOrModel) (w : World)
    : list loc * World :=
  let '(built, w1) := build_all c data w in
  (built,
   update_collection c (fun co => with_models (models co ++ built) co) w1).

(** [reset(data)] *)
Definition reset (c : cref) (data : list obj) (w : World) : World :=
  let '(built, w1) := build_all c (map Attributes data) w in
  update_collection c (with_models built) w1.

(** The body of the loop of [set]. *)
Definition set_one (c : cref) (o : SetOptions) (w : World) (resource : obj)
    : World :=
  let found := get c (prop resource "id") w in
  let w1 :=
    match found with
    | Some l => if opt_change o then update_model l (Model.set resource) w else w
    | None => w
    end in
  match found with
  | None => if opt_add o then (add c [Attributes resource] w1).2 else w1
  | Some _ => w1
  end.

(** [set(resources, { add, change, remove })] *)
Definition set (c : cref) (resources : list obj) (o : SetOptions)
    (w : World) : World :=
  let w1 :=
    if opt_remove o then
      let ids := map (fun r => prop r "id") resources in
      let toRemove := difference (_ids c w) ids in
      if negb (Nat.eqb (List.length toRemove) 0)
      then remove c (map AnId toRemove) w
      else w
    else w in
  foldl (set_one c o) w1 resources.

(** [this.models.map(model => model.toJS())] *)
Definition toJS (c : cref) (w : World) : list obj :=
  map (fun l => Model.toJS (objs w l)) (members w c).

(** [get(id, { required })]: with [required] a missing model throws. *)
Definition get_with (c : cref) (id : value) (required : bool) (w : World)
    : result (option loc) :=
  let found := get c id w in
  if negb (given found) && required
  then Throw ("Invariant: Model must be found with id: " +:+ toString id)
  else Ok found.

(** [mustGet(id)] *)
Definition mustGet (c : cref) (id : value) (w : World) : result (option loc) :=
  get_with c id true w.

(** *** create *)

Record CreateOptions := mkCreateOptions {
  create_optimistic : bool
}.

(** [{ optimistic = true }] *)
Definition defaultCreateOptions : CreateOptions := mkCreateOptions true.

(** What the promise callbacks of [create] have captured. *)
Record CreatePending := mkCreatePending {
  create_collection : cref;
  create_model : loc;
  create_was_optimistic : bool
}.

(** The synchronous part of [create(attributesOrModel, { optimistic })].
    It hands back the request of [model.save()] with what the callbacks of
    [save] and of [create] have captured.  The list of pending requests of
    the collection is bookkeeping and is left out. *)
Definition create (c : cref) (a : AttributesOrModel) (o : CreateOptions)
    (w : World)
    : outcome World (Model.Request * Model.SavePending * CreatePending) :=
  let '(built, w1) := build c a w in
  match Model.save built None Model.defaultSaveOptions w1 with
  | Thrown e w2 => Thrown e w2
  | Returned (request, saving) w2 =>
      let w3 :=
        if create_optimistic o then (add c [Instance built] w2).2 else w2 in
      Returned (request, saving,
                mkCreatePending c built (create_optimistic o)) w3
  end.

(** The [then] callback that [create] adds to the promise of [save]. *)
Definition create_then (p : CreatePending) (w : World) : World :=
  if negb (create_was_optimistic p)
  then (add (create_collection p) [Instance (create_model p)] w).2
  else w.

(** The [catch] callback that [create] adds to the promise of [save]. *)
Definition create_catch (p : CreatePending) (w : World) : World :=
  if create_was_optimistic p
  then remove (create_collection p) [AModel (create_model p)] w
  else w.

(** *** fetch *)

(** The synchronous part of [fetch({ data, ...otherOptions })]: the GET
    request on the collection's [url()]. *)
Definition fetch (c : cref) (data : option obj) (w : World)
    : outcome World Model.Request :=
  match Model.collection_url (colls w c) with
  | Throw e => Thrown e w
  | Ok u => Returned (Model.mkRequest Model.GET u (own data) "fetching") w
  end.

(** The [then] callback of [fetch]: [this.set(data, otherOptions)]. *)
Definition fetch_then (c : cref) (o : SetOptions) (data : list obj)
    (w : World) : World :=
  set c data o w.

(** The [catch] callback of [fetch] does nothing. *)
Definition fetch_catch (c : cref) (w : World) : World := w.

End Collection.

(** ** Model.destroy *)

Import JS Lodash Store.

Record DestroyOptions := mkDestroyOptions {
  destroy_data : option obj;
  destroy_optimistic : bool
}.

(** [{ optimistic = true }] *)
Definition defaultDestroyOptions : DestroyOptions :=
  mkDestroyOptions None true.

(** What the promise callbacks of [destroy] have captured. *)
Record DestroyPending := mkDestroyPending {
  destroy_this : loc;
  destroy_collection : option cref;
  destroy_was_optimistic : bool
}.

(** The synchronous part of [Model.destroy(options)].  It returns [None]
    for the already-resolved request of a new model, and the DELETE
    request with the captured data otherwise. *)
Definition destroy (this : loc) (o : DestroyOptions) (w : World)
    : outcome World (option (Model.Request * DestroyPending)) :=
  let m := objs w this in
  let collection := collection m in
  if Model.isNew m && given collection then
    match collection with
    | Some c => Returned None (Collection.remove c [Collection.AModel this] w)
    | None => Returned None w
    end
  else if Model.isNew m then Returned None w
  else
    match Model.url this w with
    | Throw e => Thrown e w
    | Ok u =>
        let w1 :=
          match collection with
          | Some c =>
              if destroy_optimistic o
              then Collection.remove c [Collection.AModel this] w
              else w
          | None => w
          end in
        Returned
          (Some (Model.mkRequest Model.DELETE u (own (destroy_data o))
                   "destroying",
                 mkDestroyPending this collection (destroy_optimistic o)))
          w1
    end.

(** The [then] callback of [destroy]. *)
Definition destroy_then (p : DestroyPending) (w : World) : World :=
  match destroy_collection p with
  | Some c =>
      if negb (destroy_was_optimistic p)
      then Collection.remove c [Collection.AModel (destroy_this p)] w
      else w
  | None => w
  end.

(** The [catch] callback of [destroy]. *)
Definition destroy_catch (p : DestroyPending) (w : World) : World :=
  match destroy_collection p with
  | Some c =>
      if destroy_was_optimistic p
      then (Collection.add c [Collection.Instance (destroy_this p)] w).2
      else w
  | None => w
  end.

(** ** Vocabulary of the properties *)

Module Spec.
Import JS Lodash Deepmerge Store Model.

Fixpoint size (v : value) : nat :=
  match v with
  | VArr l => S (foldr (fun x n => size x + n) 0 l)
  | VObj o => S (map_fold (fun _ x n => size x + n) 0 o)
  | _ => 1
  end.

(** Plain structures, as JSON carries them: [undefined] occurs nowhere. *)
Fixpoint is_plain (v : value) : bool :=
  match v with
  | VUndef => false
  | VArr l => forallb is_plain l
  | VObj o => map_fold (fun _ x b => is_plain x && b) true o
  | _ => true
  end.

(** Every key of [source] is a key of [target], and so on inside every
    nested plain object that both sides hold under the same key. *)
Fixpoint keeps_keys (source target : value) {struct source} : bool :=
  match source, target with
  | VObj s, VObj t =>
      map_fold (fun _ b acc => b && acc) true
        (merge (fun sk tk =>
           match sk with
           | Some sv =>
               Some (match tk with
                     | Some tv => keeps_keys sv tv
                     | None => false
                     end)
           | None => None
           end) s t)
  | _, _ => true
  end.

(** A root URL can be resolved: the class gives one, or else the owning
    collection does. *)
Definition has_root (this : loc) (w : World) : bool :=
  let m := objs w this in
  if nonempty (urlRoot m) then true
  else match collection m with
       | Some c => nonempty (coll_url (colls w c))
       | None => false
       end.

(** The root that [url] resolves. *)
Definition root_of (this : loc) (w : World) : string :=
  let m := objs w this in
  if nonempty (urlRoot m) then default "" (urlRoot m)
  else match collection m with
       | Some c => default "" (coll_url (colls w c))
       | None => ""
       end.

(** The world after the optimistic write of [save]. *)
Definition after_optimistic_write (this : loc) (attrs : option obj)
    (o : SaveOptions) (w : World) : World :=
  if optimistic o && given attrs
  then update_model this
         (set (if patch o
               then applyPatchChanges (toJS (objs w this)) (own attrs)
               else own attrs)) w
  else w.

(** *** Collections *)

(** The id of the model at an address, and the id a resource carries. *)
Definition idof (w : World) (l : loc) : value := Model.id (objs w l).

Definition rid (resource : obj) : value := prop resource "id".

(** The ids that the removal step of [Collection.set] takes out: truthy
    (they pass [filter(Boolean)] in [_ids]), absent from the incoming ids,
    and a number or a string (so that [remove] looks them up). *)
Definition stale (incoming : list value) (v : value) : bool :=
  truthy v && is_number_or_string v && negb (existsb (strict_eq v) incoming).

(** The incoming ids that match nothing seen so far, each once, in the
    order in which they first occur. *)
Fixpoint first_occurrences (seen incoming : list value) : list value :=
  match incoming with
  | [] => []
  | v :: rest =>
      if existsb (fun x => strict_eq x v) seen
      then first_occurrences seen rest
      else v :: first_occurrences (seen ++ [v]) rest
  end.

(** A list without the first element that satisfies [P]. *)
Fixpoint drop_first (P : loc -> bool) (xs : list loc) : list loc :=
  match xs with
  | [] => []
  | x :: rest => if P x then rest else x :: drop_first P rest
  end.

(** The resource has an [id] field holding a primitive value. *)
Definition carries_primitive_id (resource : obj) : bool :=
  match resource !! "id" with
  | Some v => is_primitive v
  | None => false
  end.

(** Two worlds whose model objects agree on everything but the owning
    collection, with the same counter and the same model class for
    collection [c]. *)
Definition same_models (c : cref) (w w' : World) : Prop :=
  idCounter w' = idCounter w
  /\ model (colls w' c) = model (colls w c)
  /\ forall l, with_collection None (objs w' l) = with_collection None (objs w l).

(** The members are allocated objects that use the primary key [id]. *)
Definition settled (c : cref) (w : World) : Prop :=
  Forall (fun l => l <= idCounter w /\ primaryKey (objs w l) = "id")
    (members w c).

(** The world after the removal step of [set]. *)
Definition after_removal (c : cref) (R : list obj) (o : Collection.SetOptions)
    (w : World) : World :=
  if Collection.opt_remove o then
    let toRemove :=
      difference (Collection._ids c w) (map (fun r => prop r "id") R) in
    if negb (Nat.eqb (List.length toRemove) 0)
    then Collection.remove c (map Collection.AnId toRemove) w
    else w
  else w.

(** *** Scenarios *)

(** A model class served under [/items], with the default primary key. *)
Definition item_class : ModelClass := mkModelClass "id" (Some "/items").

(** The entity [{id: 1, name: "a", meta: {x: 1, y: 2}}], freshly
    constructed and therefore committed. *)
Definition item_attributes : obj :=
  {[ "id" := VNum 1; "name" := VStr "a";
     "meta" := VObj {[ "x" := VNum 1; "y" := VNum 2 ]} ]}.

Definition item_world : World := (new item_class item_attributes ∅ empty_world).2.

(** An entity whose primary key holds the falsy value [0]. *)
Definition zero_world : World :=
  (new item_class {[ "id" := VNum 0; "name" := VStr "a" ]} ∅ empty_world).2.

(** A collection at address [0], served under [/items], holding the
    entities with ids [1], [2] and [3] at the addresses [1], [2], [3]. *)
Definition items_world : World :=
  (Collection.add 0
     [Collection.Attributes {[ "id" := VNum 1 ]};
      Collection.Attributes {[ "id" := VNum 2 ]};
      Collection.Attributes {[ "id" := VNum 3 ]}]
     (update_collection 0
        (fun _ => mkCollection [] (Some "/items")
                    (fun _ => mkModelClass "id" None))
        empty_world)).2.

(** A collection at address [0] whose single member has the id [0]. *)
Definition zero_items_world : World :=
  (Collection.add 0
     [Collection.Attributes {[ "id" := VNum 0; "name" := VStr "a" ]}]
     (update_collection 0
        (fun _ => mkCollection [] (Some "/items")
                    (fun _ => mkModelClass "id" None))
        empty_world)).2.

(** A collection at address [0] of models whose primary key is [uuid],
    with the single member [{uuid: "a", name: "old"}]. *)
Definition uuid_world : World :=
  (Collection.add 0
     [Collection.Attributes {[ "uuid" := VStr "a"; "name" := VStr "old" ]}]
     (update_collection 0
        (fun _ => mkCollection [] (Some "/things")
                    (fun _ => mkModelClass "uuid" None))
        empty_world)).2.

(** A persisted entity with no root URL and no collection. *)
Definition rootless_world : World :=
  (new (mkModelClass "id" None) {[ "id" := VNum 1 ]} ∅ empty_world).2.

End Spec.

(** * Properties *)

(** ** Values: size and induction through nested objects *)

Module JSFacts.
Import JS Spec.

Lemma size_lookup (o : obj) k v : o !! k = Some v -> size v < size (VObj o).
Proof.
  intros Hk. simpl.
  rewrite (map_fold_delete_L _ _ k v o); [lia | | done].
  intros. lia.
Qed.

Lemma obj_ind (P : obj -> Prop) :
  (forall o : obj,
      (forall k o', o !! k = Some (VObj o') -> P o') -> P o) ->
  forall o, P o.
Proof.
  intros step o.
  remember (size (VObj o)) as n eqn:Hn. revert o Hn.
  induction (lt_wf n) as [n _ IH]; intros o ->.
  apply step. intros k o' Hk.
  apply (IH (size (VObj o'))); [|reflexivity].
  by apply (size_lookup o k).
Qed.

Lemma is_plain_obj (o : obj) :
  is_plain (VObj o) = true <-> forall k v, o !! k = Some v -> is_plain v = true.
Proof.
  simpl.
  apply (map_fold_weak_ind
           (fun b (m : obj) =>
              b = true <-> forall k v, m !! k = Some v -> is_plain v = true)).
  - split; [|done]. intros _ k v. by rewrite lookup_empty.
  - intros i x m b Hi IH. rewrite andb_true_iff, IH. split.
    + intros [Hx Hm] k v. rewrite lookup_insert.
      case_decide; [intros [= <-]; done | apply Hm].
    + intros H. split.
      * apply (H i). by rewrite lookup_insert_eq.
      * intros k v Hk. apply (H k). rewrite lookup_insert_ne; [done|].
        intros ->. congruence.
Qed.

End JSFacts.

(** ** The diff and the patch merge *)

Module DiffFacts.
Import JS Lodash Deepmerge Store Model Spec JSFacts.

Lemma fold_andb_true (m : gmap string bool) :
  map_fold (fun _ b acc => b && acc) true m = true <->
  forall k b, m !! k = Some b -> b = true.
Proof.
  apply (map_fold_weak_ind
           (fun r (m' : gmap string bool) =>
              r = true <-> forall k b, m' !! k = Some b -> b = true)).
  - split; [|done]. intros _ k b. by rewrite lookup_empty.
  - intros i x m' b Hi IH. rewrite andb_true_iff, IH. split.
    + intros [-> Hm] k v. rewrite lookup_insert.
      case_decide; [by intros [= <-] | apply Hm].
    + intros H. split.
      * apply (H i). by rewrite lookup_insert_eq.
      * intros k v Hk. apply (H k). rewrite lookup_insert_ne; [done|].
        intros ->. congruence.
Qed.

Lemma keeps_keys_obj (s t : obj) :
  keeps_keys (VObj s) (VObj t) = true <->
  forall k sv, s !! k = Some sv ->
    exists tv, t !! k = Some tv /\ keeps_keys sv tv = true.
Proof.
  simpl. rewrite fold_andb_true. split.
  - intros H k sv Hs. specialize (H k). rewrite lookup_merge, Hs in H.
    destruct (t !! k) as [tv|] eqn:Ht; simpl in H.
    + exists tv. split; [done|]. by apply H.
    + by specialize (H false eq_refl).
  - intros H k b. rewrite lookup_merge.
    destruct (s !! k) as [sv|] eqn:Hs; simpl.
    + destruct (H k sv Hs) as (tv & -> & Hkeep). by intros [= <-].
    + by destruct (t !! k).
Qed.

(** The changes as the loop of [getChangesBetween] writes them: a key is
    present exactly when it is a changed attribute, and holds the nested
    changes when both sides are plain objects, the target's value
    otherwise. *)
Lemma getChangesBetween_lookup (source target : obj) key :
  getChangesBetween source target !! key =
  if isEqual (prop source key) (prop target key) then None
  else Some (if isPlainObject (prop source key)
                && isPlainObject (prop target key)
             then VObj (getChangesBetween_value (prop source key)
                          (prop target key))
             else prop target key).
Proof.
  unfold getChangesBetween, prop. simpl. rewrite lookup_merge.
  by destruct (source !! key) as [sv|], (target !! key) as [tv|].
Qed.

Lemma getChangesBetween_value_obj (s t : obj) :
  getChangesBetween_value (VObj s) (VObj t) = getChangesBetween s t.
Proof. reflexivity. Qed.

Lemma elem_of_keys (o : obj) k : k ∈ keys o <-> is_Some (o !! k).
Proof.
  unfold keys. rewrite list_elem_of_fmap. split.
  - intros ([k' v] & -> & H%elem_of_map_to_list). by exists v.
  - intros [v H]. exists (k, v). split; [done|]. by apply elem_of_map_to_list.
Qed.

Lemma elem_of_union xs ys k : k ∈ union xs ys <-> k ∈ xs \/ k ∈ ys.
Proof.
  unfold union. rewrite elem_of_app, list_elem_of_difference.
  destruct (decide (k ∈ xs)); tauto.
Qed.

(** The keys of the changes are the changed attributes. *)
Lemma getChangedAttributesBetween_spec (source target : obj) key :
  key ∈ getChangedAttributesBetween source target <->
  is_Some (getChangesBetween source target !! key).
Proof.
  unfold getChangedAttributesBetween.
  rewrite list_elem_of_filter, elem_of_union, !elem_of_keys.
  rewrite getChangesBetween_lookup.
  destruct (isEqual (prop source key) (prop target key)) eqn:E.
  - split; [by intros [? _] | by intros [? ?]].
  - split; [by eauto | intros _; split; [done|]].
    unfold isEqual, prop in E. apply bool_decide_eq_false in E.
    destruct (source !! key), (target !! key); eauto.
    by destruct E.
Qed.

Lemma mergeObject_lookup f (target source : obj) key :
  mergeObject f target source !! key =
  match source !! key with
  | None => target !! key
  | Some sv =>
      Some (if isMergeableObject sv && truthy (prop target key)
            then deepmerge f (prop target key) sv
            else sv)
  end.
Proof.
  unfold mergeObject, prop. rewrite lookup_merge.
  destruct (source !! key) as [sv|], (target !! key) as [tv|]; simpl; try done.
  - by destruct (isMergeableObject sv && truthy tv).
  - by rewrite andb_false_r.
Qed.

Lemma deepmerge_obj f (target source : obj) :
  deepmerge f (VObj target) (VObj source) = VObj (mergeObject f target source).
Proof. reflexivity. Qed.

Lemma mergeObject_empty f (source : obj) : mergeObject f ∅ source = source.
Proof.
  apply map_eq. intros k. rewrite mergeObject_lookup.
  unfold prop. rewrite lookup_empty. simpl.
  destruct (source !! k); [|done]. by rewrite andb_false_r.
Qed.

(** Merging a value into a target of another shape, or an array into an
    array, yields the value itself. *)
Lemma deepmerge_replaces tv sv :
  isPlainObject tv && isPlainObject sv = false ->
  deepmerge dontMergeArrays tv sv = sv.
Proof.
  intros H. destruct sv as [| | | | |new|src]; try done.
  - by destruct tv.
  - destruct tv; try done; simpl; f_equal; apply mergeObject_empty.
Qed.

Lemma applyPatchChanges_getChangesBetween (a : obj) :
  forall b : obj,
    keeps_keys (VObj a) (VObj b) = true ->
    is_plain (VObj b) = true ->
    applyPatchChanges a (getChangesBetween a b) = b.
Proof.
  induction a as [a IH] using obj_ind. intros b Hkeep Hplain.
  rewrite keeps_keys_obj in Hkeep. rewrite is_plain_obj in Hplain.
  apply map_eq. intros k. unfold applyPatchChanges.
  rewrite mergeObject_lookup, getChangesBetween_lookup.
  unfold isEqual, prop.
  destruct (a !! k) as [sv|] eqn:Ha, (b !! k) as [tv|] eqn:Hb; simpl.
  - case_bool_decide as E; [by subst|].
    f_equal.
    destruct (isPlainObject sv && isPlainObject tv) eqn:Hobj.
    + destruct sv as [| | | | | |s'], tv as [| | | | | |t']; try done.
      rewrite getChangesBetween_value_obj. cbn [isMergeableObject truthy andb].
      rewrite deepmerge_obj. f_equal.
      apply (IH k s' Ha).
      * destruct (Hkeep k _ Ha) as (tv & Htv & ?). by simplify_eq.
      * apply (Hplain k). done.
    + destruct (isMergeableObject tv && truthy sv); [|done].
      by apply deepmerge_replaces.
  - destruct (Hkeep k sv Ha) as (tv & ? & _). congruence.
  - case_bool_decide as E.
    + subst tv. by specialize (Hplain k VUndef Hb).
    + by rewrite andb_false_r.
  - done.
Qed.

End DiffFacts.

(** ** Entities *)

Module ModelFacts.
Import JS Lodash Deepmerge Store Model Spec JSFacts DiffFacts.

Lemma getChangedAttributesBetween_same (a : obj) :
  getChangedAttributesBetween a a = [].
Proof.
  unfold getChangedAttributesBetween.
  induction (union (keys a) (keys a)) as [|k ks IH]; [done|].
  rewrite filter_cons. unfold isEqual at 1.
  destruct (decide (bool_decide (prop a k = prop a k) = false)) as [E|_].
  - by rewrite bool_decide_eq_true_2 in E.
  - exact IH.
Qed.

(** A committed entity reports no changes. *)
Lemma hasChanges_commitChanges (m : Model) :
  hasChanges (commitChanges m) None = false.
Proof.
  unfold hasChanges, changedAttributes, commitChanges, toJS. simpl.
  by rewrite getChangedAttributesBetween_same.
Qed.

Lemma url_resolves (this : loc) (w : World) :
  has_root this w = true ->
  url this w =
    Ok (if isNew (objs w this) then root_of this w
        else root_of this w +:+ "/" +:+
             toString (prop (attributes (objs w this))
                         (primaryKey (objs w this)))).
Proof.
  unfold has_root, root_of, url, isNew, get, prop, collection_url, nonempty.
  destruct (objs w this) as [pk root defs attrs comm oid coll]; simpl.
  intros H. repeat (case_match; simplify_eq/=); try done.
  all: match goal with
       | E : negb (negb ?b) = true |- _ => by destruct b
       end.
Qed.

Lemma has_root_update_attributes this f w :
  (forall m, urlRoot (f m) = urlRoot m /\ collection (f m) = collection m) ->
  has_root this (update_model this f w) = has_root this w.
Proof.
  intros Hf. unfold has_root, update_model. simpl.
  rewrite fn_lookup_insert. by destruct (Hf (objs w this)) as [-> ->].
Qed.

Lemma has_root_after_optimistic_write this attrs o w :
  has_root this (after_optimistic_write this attrs o w) = has_root this w.
Proof.
  unfold after_optimistic_write.
  destruct (optimistic o && given attrs); [|done].
  by apply has_root_update_attributes.
Qed.

(** With a root URL configured, [save] returns a request. *)
Lemma save_returns this attrs o w :
  has_root this w = true ->
  exists r,
    save this attrs o w =
      Returned (r, mkSavePending this (toJS (objs w this)) (keepChanges o))
        (after_optimistic_write this attrs o w)
    /\ req_method r =
         (if isNew (objs w this) then POST
          else if patch o then PATCH else PUT)
    /\ req_data r =
         (if patch o && given attrs && negb (isNew (objs w this))
          then own attrs
          else if patch o && negb (isNew (objs w this))
               then changes (objs w this)
               else spread (toJS (objs w this)) (own attrs)).
Proof.
  intros Hroot. unfold save.
  fold (after_optimistic_write this attrs o w).
  rewrite url_resolves by by rewrite has_root_after_optimistic_write.
  eexists. split; [reflexivity|]. by split.
Qed.

End ModelFacts.

(** ** Claims about entities *)

Import JS Lodash Deepmerge Store Model Spec JSFacts DiffFacts ModelFacts.

(** The [catch] callback of [save] writes every key of the snapshot back;
    a key the snapshot does not have keeps whatever working state holds
    when the promise rejects. *)
Lemma save_catch_lookup (p : SavePending) (w : World) key :
  attributes (objs (save_catch p w) (save_this p)) !! key =
  match save_currentAttributes p !! key with
  | Some v => Some v
  | None => attributes (objs w (save_this p)) !! key
  end.
Proof.
  unfold save_catch, update_model, set. simpl. rewrite fn_lookup_insert. simpl.
  rewrite lookup_union.
  destruct (save_currentAttributes p !! key) as [v|] eqn:E.
  - by destruct (attributes (objs w (save_this p)) !! key).
  - by destruct (attributes (objs w (save_this p)) !! key).
Qed.

(** C1, evaluated on the code.  The entity [{id: 1, name: "a", meta}] is
    saved optimistically with the new attribute [nick]; the transport
    rejects.  The rollback merges the snapshot back into working state, so
    the attribute [nick], which the snapshot does not have, is still in
    working state after the failure. *)
Theorem save_failure_keeps_added_key :
  exists r p w1,
    save 1 (Some {[ "nick" := VStr "x" ]}) defaultSaveOptions item_world
      = Returned (r, p) w1
    /\ save_currentAttributes p = item_attributes
    /\ item_attributes !! "nick" = None
    /\ attributes (objs (save_catch p w1) 1) !! "nick" = Some (VStr "x")
    /\ attributes (objs (save_catch p w1) 1) <> save_currentAttributes p.
Proof.
  destruct (save_returns 1 (Some {[ "nick" := VStr "x" ]}) defaultSaveOptions
              item_world eq_refl) as (r & Hsave & _).
  eexists _, _, _. split; [exact Hsave|].
  split; [vm_compute; reflexivity|]. split; [vm_compute; reflexivity|].
  split; [vm_compute; reflexivity|].
  intros Heq. apply (f_equal (fun m : obj => m !! "nick")) in Heq.
  vm_compute in Heq. discriminate.
Qed.

(** C2, as stated, fails: the diff from [{x: 1}] to [{}] is
    [{x: undefined}], and merging it into [{x: 1}] leaves the key [x]
    behind, so the result is not deep-equal to [{}]. *)
Lemma patch_of_changes_removed_key_counterexample :
  is_plain (VObj {[ "x" := VNum 1 ]}) = true /\
  is_plain (VObj ∅) = true /\
  applyPatchChanges {[ "x" := VNum 1 ]}
    (getChangesBetween {[ "x" := VNum 1 ]} ∅) <> ∅.
Proof.
  split; [vm_compute; reflexivity|]. split; [vm_compute; reflexivity|].
  intros H. apply (f_equal (fun m : obj => m !! "x")) in H.
  vm_compute in H. discriminate.
Qed.

(** C2, amended.  For plain structures [a] and [b] where [b] removes no key
    of [a] (at the top level and inside every nested plain object held by
    both), applying the diff of [a] and [b] to [a] rebuilds [b]; and the
    diff of a changed field whose new value is an array is that whole
    array. *)
Theorem patch_of_changes_rebuilds_target (a b : obj) :
  keeps_keys (VObj a) (VObj b) = true ->
  is_plain (VObj b) = true ->
  applyPatchChanges a (getChangesBetween a b) = b
  /\ forall key new,
       b !! key = Some (VArr new) ->
       a !! key <> Some (VArr new) ->
       getChangesBetween a b !! key = Some (VArr new).
Proof.
  intros Hkeep Hplain. split.
  - by apply applyPatchChanges_getChangesBetween.
  - intros key new Hb Ha. rewrite getChangesBetween_lookup.
    unfold isEqual, prop. rewrite Hb. simpl.
    rewrite bool_decide_eq_false_2.
    + by rewrite andb_false_r.
    + destruct (a !! key); simpl; congruence.
Qed.

Lemma patch_of_changes_rebuilds_target_witness :
  let a : obj :=
    {[ "id" := VNum 1; "tags" := VArr [VStr "a"; VStr "b"];
       "meta" := VObj {[ "x" := VNum 1 ]} ]} in
  let b : obj :=
    {[ "id" := VNum 1; "tags" := VArr [VStr "c"];
       "meta" := VObj {[ "x" := VNum 2; "y" := VNull ]};
       "name" := VStr "n" ]} in
  applyPatchChanges a (getChangesBetween a b) = b
  /\ forall key new,
       b !! key = Some (VArr new) ->
       a !! key <> Some (VArr new) ->
       getChangesBetween a b !! key = Some (VArr new).
Proof.
  intros a b.
  apply (patch_of_changes_rebuilds_target a b); vm_compute; reflexivity.
Defined.

(** C4, as stated, fails: with the primary key present and holding [0],
    the id accessor returns [0], not the local identifier. *)
Lemma id_falsy_key_counterexample :
  let m := objs zero_world 1 in
  has m (primaryKey m) = true /\
  (exists v, get m (primaryKey m) = Ok v /\ truthy v = false) /\
  id m = VNum 0 /\
  id m <> VStr (optimisticId m).
Proof.
  split; [vm_compute; reflexivity|]. split.
  - exists (VNum 0). split; vm_compute; reflexivity.
  - split; [vm_compute; reflexivity|]. vm_compute. discriminate.
Qed.

(** C4, amended.  The id accessor returns the value of the primary-key
    attribute whenever working state has that attribute, whatever the
    value, and the local identifier only when the attribute is absent. *)
Theorem id_reads_primary_key (m : Model) :
  if has m (primaryKey m)
  then get m (primaryKey m) = Ok (id m)
  else id m = VStr (optimisticId m).
Proof.
  unfold has, get, id.
  destruct (attributes m !! primaryKey m) as [v|] eqn:E.
  - rewrite bool_decide_eq_true_2; [done | by exists v].
  - rewrite bool_decide_eq_false_2; [done | by intros [? ?]].
Qed.

(** C6.  Whenever a root URL is configured, [save] hands a request to the
    transport whose payload is the given attributes (patch, attributes
    given, entity not new), the current changes (patch, no attributes,
    entity not new), or otherwise the attribute snapshot merged with the
    given attributes; and whose verb is POST for a new entity, PATCH for an
    existing one with [patch], PUT for an existing one without. *)
Theorem save_selects_payload_and_verb (this : loc) (attrs : option obj)
    (o : SaveOptions) (w : World) :
  has_root this w = true ->
  exists r p w1,
    save this attrs o w = Returned (r, p) w1
    /\ req_data r =
         match patch o, attrs, isNew (objs w this) with
         | true, Some given_attributes, false => given_attributes
         | true, None, false => changes (objs w this)
         | _, _, _ => spread (toJS (objs w this)) (own attrs)
         end
    /\ req_method r =
         match isNew (objs w this), patch o with
         | true, _ => POST
         | false, true => PATCH
         | false, false => PUT
         end.
Proof.
  intros Hroot.
  destruct (save_returns this attrs o w Hroot) as (r & Hsave & Hmethod & Hdata).
  eexists r, _, _. split; [exact Hsave|]. rewrite Hdata, Hmethod.
  by destruct (patch o), attrs, (isNew (objs w this)).
Qed.

Lemma save_selects_payload_and_verb_witness :
  has_root 1 item_world = true /\
  exists r p w1,
    save 1 (Some {[ "name" := VStr "b" ]}) defaultSaveOptions item_world
      = Returned (r, p) w1
    /\ req_data r =
         match patch defaultSaveOptions, Some {[ "name" := VStr "b" ]},
               isNew (objs item_world 1) return obj with
         | true, Some given_attributes, false => given_attributes
         | true, None, false => changes (objs item_world 1)
         | _, _, _ =>
             spread (toJS (objs item_world 1))
               (own (Some {[ "name" := VStr "b" ]}))
         end
    /\ req_method r =
         match isNew (objs item_world 1), patch defaultSaveOptions with
         | true, _ => POST
         | false, true => PATCH
         | false, false => PUT
         end.
Proof.
  split; [reflexivity|].
  apply (save_selects_payload_and_verb 1 (Some {[ "name" := VStr "b" ]})
           defaultSaveOptions item_world).
  reflexivity.
Defined.

(** C7.  With [{id: 1, name: "a", meta: {x: 1, y: 2}}] committed and only
    [meta.y] changed to [3] in working state, [changes] is exactly
    [{meta: {y: 3}}]. *)
Theorem changes_reports_nested_field_only :
  committedAttributes (objs item_world 1) = item_attributes /\
  changes
    (set {[ "meta" := VObj {[ "x" := VNum 1; "y" := VNum 3 ]} ]}
       (objs item_world 1))
  = {[ "meta" := VObj {[ "y" := VNum 3 ]} ]}.
Proof. split; vm_compute; reflexivity. Qed.

(** C9.  After a [save] issued with [optimistic] and without [keepChanges]
    succeeds, the entity has no changes, and its committed state is the
    response merged over the attributes that working state held when the
    response arrived, whatever was edited while the request was in
    flight. *)
Theorem save_success_commits_in_flight_edits (this : loc)
    (attrs : option obj) (o : SaveOptions) (w : World) (r : Request)
    (p : SavePending) (w1 : World) (data : obj) (w2 : World) :
  optimistic o = true ->
  keepChanges o = false ->
  save this attrs o w = Returned (r, p) w1 ->
  let m' := objs (save_then p data w2) this in
  hasChanges m' None = false
  /\ committedAttributes m' = spread (attributes (objs w2 this)) data
  /\ attributes m' = committedAttributes m'.
Proof.
  intros _ Hkeep Hsave. unfold save in Hsave.
  destruct (url this _); [|discriminate].
  injection Hsave as _ <- _. simpl.
  unfold save_then, update_model. simpl. rewrite Hkeep, fn_lookup_insert.
  split; [apply hasChanges_commitChanges | done].
Qed.

Lemma save_success_commits_in_flight_edits_witness :
  let attrs := Some ({[ "name" := VStr "b" ]} : obj) in
  let o := defaultSaveOptions in
  let p := mkSavePending 1 (toJS (objs item_world 1)) (keepChanges o) in
  let w1 := after_optimistic_write 1 attrs o item_world in
  let r := mkRequest PATCH "/items/1" {[ "name" := VStr "b" ]} "updating" in
  let data : obj := {[ "id" := VNum 1; "name" := VStr "B" ]} in
  let w2 := update_model 1 (set {[ "note" := VStr "typed meanwhile" ]}) w1 in
  optimistic o = true /\
  keepChanges o = false /\
  save 1 attrs o item_world = Returned (r, p) w1 /\
  let m' := objs (save_then p data w2) 1 in
  hasChanges m' None = false
  /\ committedAttributes m' = spread (attributes (objs w2 1)) data
  /\ attributes m' = committedAttributes m'.
Proof.
  intros attrs o p w1 r data w2.
  assert (Hsave : save 1 attrs o item_world = Returned (r, p) w1)
    by (vm_compute; reflexivity).
  split; [reflexivity|]. split; [reflexivity|]. split; [exact Hsave|].
  exact (save_success_commits_in_flight_edits 1 attrs o item_world r p w1
           data w2 eq_refl eq_refl Hsave).
Defined.

(** C10.  [isNew] holds exactly when working state lacks the primary-key
    attribute or holds a falsy value for it.  So for an entity whose
    primary key is [0] or the empty string, [isNew] holds, [url] is the
    root without the [/id] segment, and every [save] issues POST. *)
Theorem isNew_iff_key_absent_or_falsy (this : loc) (w : World) :
  let m := objs w this in
  (isNew m = true <->
     has m (primaryKey m) = false \/
     exists v, get m (primaryKey m) = Ok v /\ truthy v = false)
  /\ forall v,
       get m (primaryKey m) = Ok v ->
       v = VNum 0 \/ v = VStr "" ->
       has_root this w = true ->
       isNew m = true
       /\ url this w = Ok (root_of this w)
       /\ forall attrs o, exists r p w1,
            save this attrs o w = Returned (r, p) w1 /\ req_method r = POST.
Proof.
  intros m. split.
  - unfold isNew, has, get.
    destruct (attributes m !! primaryKey m) as [v|] eqn:E.
    + rewrite bool_decide_eq_true_2 by by exists v. rewrite negb_true_iff.
      split.
      * intros Hv. right. by exists v.
      * intros [?|(v' & [= <-] & Hv)]; done.
    + split; [|done]. intros _. left.
      rewrite bool_decide_eq_false_2; [done | by intros [? ?]].
  - intros v Hget Hv Hroot.
    assert (Hnew : isNew m = true).
    { unfold isNew. unfold get in Hget.
      destruct (attributes m !! primaryKey m); [|done].
      injection Hget as ->. by destruct Hv as [-> | ->]. }
    split; [exact Hnew|]. split.
    + rewrite url_resolves by done. fold m. by rewrite Hnew.
    + intros attrs o.
      destruct (save_returns this attrs o w Hroot) as (r & Hsave & Hmethod & _).
      eexists r, _, _. split; [exact Hsave|]. fold m in Hmethod.
      by rewrite Hmethod, Hnew.
Qed.

Lemma isNew_iff_key_absent_or_falsy_witness :
  get (objs zero_world 1) (primaryKey (objs zero_world 1)) = Ok (VNum 0) /\
  has_root 1 zero_world = true /\
  isNew (objs zero_world 1) = true /\
  url 1 zero_world = Ok (root_of 1 zero_world) /\
  forall attrs o, exists r p w1,
    save 1 attrs o zero_world = Returned (r, p) w1 /\ req_method r = POST.
Proof.
  split; [reflexivity|]. split; [reflexivity|].
  exact (proj2 (isNew_iff_key_absent_or_falsy 1 zero_world) (VNum 0)
           eq_refl (or_introl eq_refl) eq_refl).
Defined.

(** ** Collections *)

#[local] Open Scope list_scope.

Module CollectionFacts.
Import JS Lodash Store Spec ModelFacts.

Lemma indexOf_middle (x : loc) (pre post : list loc) :
  x ∉ pre ->
  Collection.indexOf x (pre ++ x :: post) = Z.of_nat (List.length pre).
Proof.
  induction pre as [|y pre IH]; intros Hx; simpl.
  - by rewrite Nat.eqb_refl.
  - apply not_elem_of_cons in Hx as [Hne Hx].
    rewrite (proj2 (Nat.eqb_neq y x)) by done.
    rewrite (IH Hx).
    destruct (Z.ltb_spec (Z.of_nat (List.length pre)) 0); lia.
Qed.

Lemma splice1_nat (n : nat) (xs : list loc) :
  Collection.splice1 (Z.of_nat n) xs = delete n xs.
Proof.
  unfold Collection.splice1.
  destruct (Z.ltb_spec (Z.of_nat n) 0); [lia|]. by rewrite Nat2Z.id.
Qed.

Lemma splice1_indexOf_middle (x : loc) (pre post : list loc) :
  x ∉ pre ->
  Collection.splice1 (Collection.indexOf x (pre ++ x :: post))
    (pre ++ x :: post) = pre ++ post.
Proof.
  intros Hx. rewrite indexOf_middle, splice1_nat by done.
  apply delete_middle.
Qed.

(** Removing an owned member by reference. *)
Lemma remove_owned_member (c : cref) (this : loc) (w : World) pre post :
  collection (objs w this) = Some c ->
  members w c = pre ++ this :: post ->
  this ∉ pre ->
  members (Collection.remove c [Collection.AModel this] w) c = pre ++ post.
Proof.
  intros Hc Hm Hpre. unfold Collection.remove, Collection.remove_one. simpl.
  rewrite bool_decide_eq_true_2 by done.
  unfold members, update_model, update_collection in *. simpl.
  rewrite fn_lookup_insert. simpl. rewrite Hm.
  by apply splice1_indexOf_middle.
Qed.

(** Adding a model instance appends it. *)
Lemma add_instance (c : cref) (this : loc) (w : World) :
  members (Collection.add c [Collection.Instance this] w).2 c
  = members w c ++ [this].
Proof.
  unfold Collection.add, members, update_collection, update_model. simpl.
  by rewrite fn_lookup_insert.
Qed.

(** *** The removal step of [set] *)

Lemma find_split (P : loc -> bool) (xs : list loc) (l : loc) :
  List.find P xs = Some l ->
  exists pre post,
    xs = pre ++ l :: post /\ Forall (fun x => P x = false) pre /\ P l = true.
Proof.
  induction xs as [|x xs IH]; [done|]. simpl.
  destruct (P x) eqn:Px.
  - intros [= ->]. by exists [], xs.
  - intros (pre & post & -> & Hpre & Hl)%IH.
    exists (x :: pre), post. split; [done|]. split; [|done].
    by constructor.
Qed.

Lemma find_skip (P : loc -> bool) (pre post : list loc) (l : loc) :
  Forall (fun x => P x = false) pre ->
  P l = true ->
  List.find P (pre ++ l :: post) = Some l.
Proof.
  intros Hpre Hl. induction Hpre as [|x pre Hx _ IH]; simpl.
  - by rewrite Hl.
  - by rewrite Hx.
Qed.

Lemma find_existsb (P : loc -> bool) (xs : list loc) :
  existsb P xs = given (List.find P xs).
Proof.
  induction xs as [|x xs IH]; [done|]. simpl. by destruct (P x).
Qed.

Lemma strict_eq_eq (a b : value) : strict_eq a b = true -> a = b.
Proof.
  unfold strict_eq. intros [_ H]%andb_true_iff.
  by apply bool_decide_eq_true in H.
Qed.

Lemma strict_eq_refl (a : value) : is_primitive a = true -> strict_eq a a = true.
Proof.
  intros H. unfold strict_eq. rewrite H. simpl.
  by apply bool_decide_eq_true.
Qed.

Lemma is_number_or_string_primitive (v : value) :
  is_number_or_string v = true -> is_primitive v = true.
Proof. by destruct v. Qed.

Lemma same_models_refl c w : same_models c w w.
Proof. by repeat split. Qed.

Lemma same_models_trans c w1 w2 w3 :
  same_models c w1 w2 -> same_models c w2 w3 -> same_models c w1 w3.
Proof.
  intros (H1 & H2 & H3) (H1' & H2' & H3').
  split; [congruence|]. split; [congruence|].
  intros l. by rewrite H3', H3.
Qed.

Lemma same_models_idof c w w' l : same_models c w w' -> idof w' l = idof w l.
Proof.
  intros (_ & _ & H). specialize (H l). unfold idof, Model.id.
  destruct (objs w' l), (objs w l). unfold with_collection in H. simpl in *.
  by inversion H.
Qed.

Lemma same_models_primaryKey c w w' l :
  same_models c w w' -> primaryKey (objs w' l) = primaryKey (objs w l).
Proof.
  intros (_ & _ & H). specialize (H l).
  destruct (objs w' l), (objs w l). unfold with_collection in H. simpl in *.
  by inversion H.
Qed.

(** Removing by an id that is a number or a string takes out the first
    member with that id. *)
Lemma remove_one_by_id (c : cref) (w : World) (pre post : list loc) (l : loc) :
  members w c = pre ++ l :: post ->
  is_number_or_string (idof w l) = true ->
  Forall (fun x => strict_eq (idof w x) (idof w l) = false) pre ->
  let w' := Collection.remove_one c (Collection.AnId (idof w l)) w in
  members w' c = pre ++ post /\ same_models c w w'.
Proof.
  intros Hm Hid Hpre. unfold Collection.remove_one. rewrite Hid.
  unfold Collection.get. fold (members w c). rewrite Hm.
  assert (Hl : strict_eq (idof w l) (idof w l) = true)
    by by apply strict_eq_refl, is_number_or_string_primitive.
  rewrite (find_skip (fun item => strict_eq (Model.id (objs w item)) (idof w l))
             pre post l Hpre Hl).
  assert (Hnot : l ∉ pre).
  { intros Hin. rewrite Forall_forall in Hpre. specialize (Hpre l Hin).
    congruence. }
  split.
  - unfold members, update_model, update_collection in *. simpl.
    rewrite fn_lookup_insert. simpl. rewrite Hm.
    by apply splice1_indexOf_middle.
  - repeat split.
    + unfold update_model, update_collection. simpl.
      by rewrite fn_lookup_insert.
    + intros x. unfold update_model, update_collection. simpl.
      destruct (decide (l = x)) as [->|Hne].
      * by rewrite fn_lookup_insert.
      * by rewrite fn_lookup_insert_ne.
Qed.

Lemma remove_one_skipped (c : cref) (w : World) (v : value) :
  is_number_or_string v = false ->
  Collection.remove_one c (Collection.AnId v) w = w.
Proof. intros H. unfold Collection.remove_one. by rewrite H. Qed.

Lemma stale_strict_eq (incoming : list value) (a b : value) :
  strict_eq a b = true -> stale incoming a = stale incoming b.
Proof. by intros ->%strict_eq_eq. Qed.

Lemma remove_stale_ids (c : cref) (incoming : list value) (f : loc -> value)
    (rest : list loc) :
  forall (pre : list loc) (w : World),
    (forall l, idof w l = f l) ->
    members w c = pre ++ rest ->
    Forall (fun l => stale incoming (f l) = false) pre ->
    let toRemove :=
      difference (List.filter truthy (map f rest)) incoming in
    let w' := Collection.remove c (map Collection.AnId toRemove) w in
    members w' c = pre ++ filter (fun l => stale incoming (f l) = false) rest
    /\ same_models c w w'.
Proof.
  induction rest as [|l rest IH]; intros pre w Hf Hm Hpre; simpl.
  - split; [done | apply same_models_refl].
  - assert (Hskip :
      stale incoming (f l) = false ->
      forall w0, (forall x, idof w0 x = f x) -> members w0 c = pre ++ l :: rest ->
      let w' := Collection.remove c
                  (map Collection.AnId
                     (difference (List.filter truthy (map f rest)) incoming))
                  w0 in
      members w' c
        = pre ++ filter (fun l => stale incoming (f l) = false) (l :: rest)
      /\ same_models c w0 w').
    { intros Hl w0 Hf0 Hm0.
      destruct (IH (pre ++ [l]) w0 Hf0) as [Hmem Hsame].
      - by rewrite <- app_assoc.
      - apply Forall_app. split; [done|]. by constructor.
      - split; [|done]. rewrite Hmem, filter_cons_True by done.
        by rewrite <- app_assoc. }
    unfold stale in Hskip |- *.
    destruct (truthy (f l)) eqn:Ht; simpl; [|by apply Hskip].
    unfold difference. rewrite filter_cons. fold (difference (List.filter truthy (map f rest)) incoming).
    destruct (decide (existsb (strict_eq (f l)) incoming = false)) as [Hin|Hin];
      [|apply Hskip; [|done..]].
    2:{ apply not_false_is_true in Hin. rewrite Hin. simpl.
        by rewrite andb_false_r. }
    simpl.
    destruct (is_number_or_string (f l)) eqn:Hns.
    + (* the member is stale: it is the first with its id *)
      assert (Hstale : stale incoming (f l) = true).
      { unfold stale. by rewrite Ht, Hns, Hin. }
      assert (Hpre' :
        Forall (fun x => strict_eq (idof w x) (idof w l) = false) pre).
      { eapply Forall_impl; [exact Hpre|]. intros x Hx. simpl in Hx.
        rewrite !Hf. destruct (strict_eq (f x) (f l)) eqn:E; [|done].
        rewrite (stale_strict_eq incoming _ _ E) in Hx. congruence. }
      rewrite <- (Hf l).
      destruct (remove_one_by_id c w pre rest l Hm) as [Hm1 Hsame1];
        [by rewrite Hf | exact Hpre' |].
      destruct (IH pre _ (fun x => eq_trans (same_models_idof c _ _ x Hsame1)
                                     (Hf x)) Hm1 Hpre) as [Hm2 Hsame2].
      split.
      * rewrite Hm2, filter_cons_False; [done|].
        fold (stale incoming (f l)). by rewrite Hstale.
      * eapply same_models_trans; [exact Hsame1 | exact Hsame2].
    + rewrite remove_one_skipped by done.
      by apply Hskip.
Qed.

(** *** The loop of [set] over the incoming resources *)

Lemma add_attributes (c : cref) (r : obj) (w : World) :
  let n := S (idCounter w) in
  let w' := (Collection.add c [Collection.Attributes r] w).2 in
  members w' c = members w c ++ [n]
  /\ idCounter w' = n
  /\ model (colls w' c) = model (colls w c)
  /\ (forall x, x <> n -> objs w' x = objs w x)
  /\ attributes (objs w' n) = r
  /\ primaryKey (objs w' n) = class_primaryKey (model (colls w c) r).
Proof.
  unfold Collection.add, Collection.build_all, Collection.build, Model.new,
    Model.uniqueId, members, update_model, update_collection, spread.
  simpl. rewrite !fn_lookup_insert. simpl.
  repeat split.
  - intros x Hx. by rewrite !fn_lookup_insert_ne.
  - apply (right_id_L ∅ (∪)).
Qed.

Lemma set_one_found (c : cref) (r : obj) (w : World) (l : loc) :
  Collection.get c (rid r) w = Some l ->
  Collection.set_one c Collection.defaultSetOptions w r
  = update_model l (Model.set r) w.
Proof.
  intros H. unfold Collection.set_one. fold (rid r). by rewrite H.
Qed.

Lemma set_one_missing (c : cref) (r : obj) (w : World) :
  Collection.get c (rid r) w = None ->
  Collection.set_one c Collection.defaultSetOptions w r
  = (Collection.add c [Collection.Attributes r] w).2.
Proof.
  intros H. unfold Collection.set_one. fold (rid r). by rewrite H.
Qed.

Lemma carries_primitive_id_rid (r : obj) :
  carries_primitive_id r = true ->
  r !! "id" = Some (rid r) /\ is_primitive (rid r) = true.
Proof.
  unfold carries_primitive_id, rid, prop.
  by destruct (r !! "id").
Qed.

Lemma get_existsb (c : cref) (v : value) (w : World) :
  existsb (fun x => strict_eq x v) (map (idof w) (members w c))
  = given (Collection.get c v w).
Proof.
  unfold Collection.get. rewrite <- find_existsb.
  fold (members w c). induction (members w c) as [|x xs IH]; [done|].
  simpl. by rewrite IH.
Qed.

(** Merging a resource into the member that carries its id leaves that
    id in place. *)
Lemma idof_update_found (r : obj) (w : World) (l x : loc) :
  r !! "id" = Some (rid r) ->
  primaryKey (objs w l) = "id" ->
  strict_eq (idof w l) (rid r) = true ->
  idof (update_model l (Model.set r) w) x = idof w x.
Proof.
  intros Hr Hpk Heq. unfold idof, update_model. simpl.
  destruct (decide (l = x)) as [<-|Hne].
  - rewrite fn_lookup_insert. apply strict_eq_eq in Heq.
    unfold idof in Heq. rewrite Heq.
    unfold Model.id, Model.set. simpl. rewrite Hpk.
    by rewrite (lookup_union_Some_l _ _ _ _ Hr).
  - by rewrite fn_lookup_insert_ne.
Qed.

Lemma set_loop (c : cref) (R : list obj) :
  forall w : World,
    Forall (fun r => carries_primitive_id r = true) R ->
    Forall (fun r => class_primaryKey (model (colls w c) r) = "id") R ->
    settled c w ->
    exists added,
      let w' := foldl (Collection.set_one c Collection.defaultSetOptions) w R in
      members w' c = members w c ++ added
      /\ Forall (fun l => idCounter w < l) added
      /\ map (idof w') added
         = first_occurrences (map (idof w) (members w c)) (map rid R)
      /\ forall l, l <= idCounter w -> idof w' l = idof w l.
Proof.
  induction R as [|r R IH]; intros w Hids Hcls Hwf.
  - exists []. simpl. by rewrite app_nil_r.
  - apply Forall_cons in Hids as [Hr Hids].
    apply Forall_cons in Hcls as [Hc Hcls].
    destruct (carries_primitive_id_rid r Hr) as [Hrid Hprim].
    simpl. rewrite get_existsb.
    destruct (Collection.get c (rid r) w) as [l|] eqn:Hget; simpl.
    + (* a member carries the id: it is updated in place *)
      rewrite (set_one_found c r w l Hget).
      pose proof Hget as Hfind. unfold Collection.get in Hfind.
      apply find_split in Hfind as (pre & post & Hm & _ & Heq).
      fold (members w c) in Hm.
      assert (Hl : l ∈ members w c) by (rewrite Hm; set_solver).
      unfold settled in Hwf. rewrite Forall_forall in Hwf.
      destruct (Hwf l Hl) as [_ Hpk].
      set (w1 := update_model l (Model.set r) w).
      assert (Hid1 : forall x, idof w1 x = idof w x)
        by (intros x; by apply idof_update_found).
      destruct (IH w1) as (added & Hmem & Hnew & Hadd & Hkeep).
      * done.
      * done.
      * unfold settled. rewrite Forall_forall. intros x Hx.
        destruct (Hwf x Hx) as [Hle Hpkx]. split; [done|].
        unfold w1, update_model. simpl.
        destruct (decide (l = x)) as [<-|Hne].
        -- by rewrite fn_lookup_insert.
        -- by rewrite fn_lookup_insert_ne.
      * exists added. simpl. split; [exact Hmem|]. split; [exact Hnew|].
        split.
        -- rewrite Hadd. f_equal. apply map_ext. intros x. apply Hid1.
        -- intros x Hx. by rewrite (Hkeep x Hx).
    + (* no member carries the id: a model is built and appended *)
      rewrite (set_one_missing c r w Hget).
      destruct (add_attributes c r w) as (Hm1 & Hc1 & Hmodel1 & Hobjs1 & Hattrs1 & Hpk1).
      set (n := S (idCounter w)) in *.
      set (w1 := (Collection.add c [Collection.Attributes r] w).2) in *.
      unfold settled in Hwf. rewrite Forall_forall in Hwf.
      assert (Hold : forall x, x <= idCounter w -> idof w1 x = idof w x).
      { intros x Hx. unfold idof. rewrite Hobjs1; [done | unfold n; lia]. }
      assert (Hidn : idof w1 n = rid r).
      { unfold idof, Model.id. by rewrite Hpk1, Hc, Hattrs1, Hrid. }
      destruct (IH w1) as (added & Hmem & Hnew & Hadd & Hkeep).
      * done.
      * by rewrite Hmodel1.
      * unfold settled. rewrite Hm1, Hc1. apply Forall_app. split.
        -- rewrite Forall_forall. intros x Hx.
           destruct (Hwf x Hx) as [Hle Hpkx]. split; [unfold n; lia|].
           rewrite Hobjs1; [done | unfold n; lia].
        -- constructor; [|done]. split; [done|]. by rewrite Hpk1.
      * exists (n :: added). simpl.
        split; [by rewrite Hmem, Hm1, <- app_assoc|].
        split.
        { constructor; [unfold n; lia|].
          eapply Forall_impl; [exact Hnew|]. intros x. rewrite Hc1.
          unfold n. lia. }
        split.
        -- rewrite Hkeep by (rewrite Hc1; lia). rewrite Hidn. f_equal.
           rewrite Hadd, Hm1, map_app. simpl. rewrite Hidn. f_equal. f_equal.
           apply map_ext_in. intros x Hx%list_elem_of_In.
           apply Hold. by apply Hwf.
        -- intros x Hx. rewrite Hkeep by (rewrite Hc1; unfold n; lia).
           by apply Hold.
Qed.

(** *** The ids of the members that [set] builds *)

Lemma existsb_strict_eq_elem_of (seen : list value) (v : value) :
  is_primitive v = true ->
  existsb (fun x => strict_eq x v) seen = true <-> v ∈ seen.
Proof.
  intros Hv. rewrite existsb_exists. split.
  - intros (x & Hx%list_elem_of_In & ->%strict_eq_eq). done.
  - intros Hin. exists v. split; [by apply list_elem_of_In|].
    by apply strict_eq_refl.
Qed.

Lemma first_occurrences_ext (incoming : list value) :
  forall seen1 seen2 : list value,
    (forall v, v ∈ incoming ->
       existsb (fun x => strict_eq x v) seen1
       = existsb (fun x => strict_eq x v) seen2) ->
    first_occurrences seen1 incoming = first_occurrences seen2 incoming.
Proof.
  induction incoming as [|v rest IH]; intros seen1 seen2 H; [done|]. simpl.
  rewrite <- (H v) by set_solver.
  destruct (existsb (fun x => strict_eq x v) seen1).
  - apply IH. intros u Hu. apply H. set_solver.
  - f_equal. apply IH. intros u Hu. rewrite !existsb_app.
    f_equal. apply H. set_solver.
Qed.

(** Each primitive incoming id that was not seen occurs exactly once. *)
Lemma first_occurrences_spec (incoming : list value) :
  forall seen : list value,
    Forall (fun v => is_primitive v = true) incoming ->
    NoDup (first_occurrences seen incoming)
    /\ forall v, v ∈ first_occurrences seen incoming
                 <-> v ∈ incoming /\ v ∉ seen.
Proof.
  induction incoming as [|v rest IH]; intros seen Hprim; simpl.
  - split; [constructor|]. set_solver.
  - apply Forall_cons in Hprim as [Hv Hrest].
    destruct (existsb (fun x => strict_eq x v) seen) eqn:E.
    + apply existsb_strict_eq_elem_of in E; [|done].
      destruct (IH seen Hrest) as [Hnd Hin]. split; [done|].
      intros u. rewrite Hin. set_solver.
    + assert (Hnot : v ∉ seen).
      { intros Hin%existsb_strict_eq_elem_of; [congruence | done]. }
      destruct (IH (seen ++ [v]) Hrest) as [Hnd Hin]. split.
      * constructor; [|done]. rewrite Hin. set_solver.
      * intros u. rewrite elem_of_cons, Hin.
        destruct (decide (u = v)) as [->|Hne]; set_solver.
Qed.

Lemma existsb_kept (incoming : list value) (f : loc -> value)
    (ms : list loc) (v : value) :
  v ∈ incoming ->
  existsb (fun x => strict_eq x v)
    (map f (filter (fun l => stale incoming (f l) = false) ms))
  = existsb (fun x => strict_eq x v) (map f ms).
Proof.
  intros Hv. induction ms as [|l ms IH]; [done|].
  rewrite filter_cons.
  destruct (decide (stale incoming (f l) = false)) as [Hs|Hs]; simpl.
  - by rewrite IH.
  - rewrite IH. apply not_false_is_true in Hs.
    destruct (strict_eq (f l) v) eqn:E; [|done].
    unfold stale in Hs. apply andb_true_iff in Hs as [_ Hs].
    apply negb_true_iff in Hs.
    assert (existsb (strict_eq (f l)) incoming = true); [|congruence].
    apply existsb_exists. exists v. split; [by apply list_elem_of_In | done].
Qed.

End CollectionFacts.

(** ** Claims about collections *)

Import CollectionFacts.

(** C8.  [destroy] with [optimistic] on a persisted entity that its
    collection holds (once, as members are unique), with a URL to send
    the request to, takes the entity out of the member sequence in the
    synchronous part, before the DELETE request settles; when the request
    then fails, the [catch] callback appends the entity at the end of the
    member sequence as it is at that moment, not at its former
    position. *)
Theorem destroy_optimistic_removes_then_appends (this : loc) (c : cref)
    (o : DestroyOptions) (w : World) (pre post : list loc) :
  destroy_optimistic o = true ->
  Model.isNew (objs w this) = false ->
  collection (objs w this) = Some c ->
  has_root this w = true ->
  members w c = pre ++ this :: post ->
  this ∉ pre ->
  this ∉ post ->
  exists r p w1,
    destroy this o w = Returned (Some (r, p)) w1
    /\ Model.req_method r = Model.DELETE
    /\ members w1 c = pre ++ post
    /\ (this ∉ members w1 c)
    /\ members (destroy_catch p w1) c = pre ++ post ++ [this]
    /\ forall w2, members (destroy_catch p w2) c = members w2 c ++ [this].
Proof.
  intros Ho Hnew Hc Hroot Hm Hpre Hpost.
  unfold destroy. rewrite Hnew, Hc, Ho. simpl.
  rewrite url_resolves by done.
  eexists _, _, _. split; [reflexivity|]. split; [done|].
  pose proof (remove_owned_member c this w pre post Hc Hm Hpre) as Hrm.
  unfold Collection.remove in Hrm. simpl in Hrm.
  split; [exact Hrm|]. split.
  - rewrite Hrm. rewrite elem_of_app. tauto.
  - split.
    + etrans; [apply add_instance|]. by rewrite Hrm, <- app_assoc.
    + intros w2. apply add_instance.
Qed.

Lemma destroy_optimistic_removes_then_appends_witness :
  destroy_optimistic defaultDestroyOptions = true /\
  Model.isNew (objs items_world 2) = false /\
  collection (objs items_world 2) = Some 0 /\
  has_root 2 items_world = true /\
  members items_world 0 = [1] ++ 2 :: [3] /\
  (2 ∉ [1]) /\
  (2 ∉ [3]) /\
  exists r p w1,
    destroy 2 defaultDestroyOptions items_world = Returned (Some (r, p)) w1
    /\ Model.req_method r = Model.DELETE
    /\ members w1 0 = [1] ++ [3]
    /\ (2 ∉ members w1 0)
    /\ members (destroy_catch p w1) 0 = [1] ++ [3] ++ [2]
    /\ forall w2, members (destroy_catch p w2) 0 = members w2 0 ++ [2].
Proof.
  assert (H1 : 2 ∉ [1]) by (apply (bool_decide_unpack _); vm_compute; exact I).
  assert (H3 : 2 ∉ [3]) by (apply (bool_decide_unpack _); vm_compute; exact I).
  split; [reflexivity|]. split; [reflexivity|]. split; [reflexivity|].
  split; [reflexivity|]. split; [reflexivity|]. split; [exact H1|].
  split; [exact H3|].
  exact (destroy_optimistic_removes_then_appends 2 0 defaultDestroyOptions
           items_world [1] [3] eq_refl eq_refl eq_refl eq_refl eq_refl H1 H3).
Defined.

(** C5, evaluated on the code.  The collection builds models whose primary
    key is [uuid] and holds the member [{uuid: "a", name: "old"}] at
    address [1].  [set] with the resource [{uuid: "a", name: "new"}] reads
    the field [id] of the resource, which it does not have: the member's
    id ["a"] counts as stale and the member is removed, no member matches
    the resource, and a second model is built for it at address [2].  The
    member at address [1] is not updated. *)
Theorem set_ignores_configured_primary_key :
  let resource : obj := {[ "uuid" := VStr "a"; "name" := VStr "new" ]} in
  let w' := Collection.set 0 [resource] Collection.defaultSetOptions uuid_world in
  primaryKey (objs uuid_world 1) = "uuid"
  /\ members uuid_world 0 = [1]
  /\ idof uuid_world 1 = VStr "a"
  /\ prop resource (primaryKey (objs uuid_world 1)) = VStr "a"
  /\ members w' 0 = [2]
  /\ attributes (objs w' 1) !! "name" = Some (VStr "old")
  /\ collection (objs w' 1) = None
  /\ idof w' 2 = VStr "a".
Proof. repeat split; vm_compute; reflexivity. Qed.

(** C3, as stated, fails: the member with the falsy id [0] is not in the
    id set of the empty resource list, and [set] leaves it in place. *)
Lemma set_keeps_falsy_id_member_counterexample :
  members zero_items_world 0 = [1]
  /\ idof zero_items_world 1 = VNum 0
  /\ (VNum 0 ∉ map rid [])
  /\ members (Collection.set 0 [] Collection.defaultSetOptions zero_items_world) 0
     = [1].
Proof.
  split; [vm_compute; reflexivity|]. split; [vm_compute; reflexivity|].
  split; [apply not_elem_of_nil|]. vm_compute; reflexivity.
Qed.

(** C3, amended.  The members use the default primary key [id] and every
    incoming resource carries a primitive [id].  Then [set] with all three
    options enabled
    - removes every member whose id is a truthy number or string that is
      not an incoming id, and no other member (a member with a falsy id
      stays);
    - keeps the remaining members in their relative order, with their ids;
    - appends after them one newly built member for every incoming id that
      no member had, in the order in which these ids first occur. *)
Theorem set_reconciles_members (c : cref) (R : list obj) (w : World) :
  Forall (fun l => l <= idCounter w) (members w c) ->
  Forall (fun l => primaryKey (objs w l) = "id") (members w c) ->
  Forall (fun r => class_primaryKey (model (colls w c) r) = "id") R ->
  Forall (fun r => carries_primitive_id r = true) R ->
  let incoming := map rid R in
  let w' := Collection.set c R Collection.defaultSetOptions w in
  exists added,
    members w' c
    = filter (fun l => stale incoming (idof w l) = false) (members w c)
      ++ added
    /\ (forall l, l ∈ members w c ->
          stale incoming (idof w l) = true -> l ∉ members w' c)
    /\ (forall l, l ∈ members w c -> idof w' l = idof w l)
    /\ Forall (fun l => l ∉ members w c) added
    /\ map (idof w') added
       = first_occurrences (map (idof w) (members w c)) incoming
    /\ NoDup (map (idof w') added)
    /\ (forall v, v ∈ map (idof w') added
          <-> v ∈ incoming /\ v ∉ map (idof w) (members w c)).
Proof.
  intros Halloc Hpk Hcls Hids incoming w'.
  set (kept := filter (fun l => stale incoming (idof w l) = false)
                 (members w c)).
  set (toRemove := difference (Collection._ids c w) incoming).
  set (w1 := Collection.remove c (map Collection.AnId toRemove) w).
  assert (Hw' : w' = foldl (Collection.set_one c Collection.defaultSetOptions)
                       w1 R).
  { unfold w', Collection.set. simpl.
    change (map (fun r : obj => prop r "id") R) with incoming.
    fold toRemove. f_equal. unfold w1. by destruct toRemove. }
  assert (Hrm : members w1 c = kept /\ same_models c w w1).
  { apply (remove_stale_ids c incoming (idof w) (members w c) [] w);
      [done | done | constructor]. }
  destruct Hrm as [Hm1 Hsame].
  assert (Hc1 : idCounter w1 = idCounter w) by apply Hsame.
  destruct (set_loop c R w1) as (added & Hmem & Hnew & Hadd & Hkeep).
  { done. }
  { destruct Hsame as (_ & -> & _). done. }
  { unfold settled. rewrite Hm1, Hc1. unfold kept.
    rewrite Forall_forall. intros l [_ Hl]%list_elem_of_filter.
    rewrite Forall_forall in Halloc, Hpk.
    rewrite (same_models_primaryKey c w w1 l Hsame). auto. }
  simpl in Hmem, Hadd, Hkeep. rewrite <- Hw' in Hmem, Hadd, Hkeep.
  rewrite Hm1 in Hmem, Hadd. rewrite Hc1 in Hnew, Hkeep.
  assert (Hfresh : Forall (fun l => l ∉ members w c) added).
  { eapply Forall_impl; [exact Hnew|]. intros l Hl Hin.
    rewrite Forall_forall in Halloc. specialize (Halloc l Hin).
    simpl in Hl. lia. }
  assert (Hadd' : map (idof w') added
                  = first_occurrences (map (idof w) (members w c)) incoming).
  { rewrite Hadd.
    rewrite (map_ext (idof w1) (idof w))
      by (intros l; by apply (same_models_idof c)).
    apply first_occurrences_ext. intros v Hv. by apply existsb_kept. }
  assert (Hprim : Forall (fun v => is_primitive v = true) incoming).
  { unfold incoming. rewrite Forall_fmap. eapply Forall_impl; [exact Hids|].
    intros r Hr. by apply carries_primitive_id_rid. }
  destruct (first_occurrences_spec incoming
              (map (idof w) (members w c)) Hprim) as [Hnd Hin].
  exists added. split; [exact Hmem|]. split.
  { intros l Hl Hstale. rewrite Hmem, elem_of_app. intros [Hk|Ha].
    - apply list_elem_of_filter in Hk as [Hk _]. congruence.
    - rewrite Forall_forall in Hfresh. by apply (Hfresh l). }
  split.
  { intros l Hl. rewrite Forall_forall in Halloc.
    rewrite (Hkeep l (Halloc l Hl)). by apply (same_models_idof c). }
  split; [exact Hfresh|]. split; [exact Hadd'|].
  rewrite Hadd'. by split.
Qed.

Lemma set_reconciles_members_witness :
  let R : list obj :=
    [ {[ "id" := VNum 4; "name" := VStr "four" ]};
      {[ "id" := VNum 2; "name" := VStr "two" ]};
      {[ "id" := VNum 4 ]} ] in
  let w := items_world in
  Forall (fun l => l <= idCounter w) (members w 0) /\
  Forall (fun l => primaryKey (objs w l) = "id") (members w 0) /\
  Forall (fun r => class_primaryKey (model (colls w 0) r) = "id") R /\
  Forall (fun r => carries_primitive_id r = true) R /\
  let incoming := map rid R in
  let w' := Collection.set 0 R Collection.defaultSetOptions w in
  exists added,
    members w' 0
    = filter (fun l => stale incoming (idof w l) = false) (members w 0)
      ++ added
    /\ (forall l, l ∈ members w 0 ->
          stale incoming (idof w l) = true -> l ∉ members w' 0)
    /\ (forall l, l ∈ members w 0 -> idof w' l = idof w l)
    /\ Forall (fun l => l ∉ members w 0) added
    /\ map (idof w') added
       = first_occurrences (map (idof w) (members w 0)) incoming
    /\ NoDup (map (idof w') added)
    /\ (forall v, v ∈ map (idof w') added
          <-> v ∈ incoming /\ v ∉ map (idof w) (members w 0)).
Proof.
  intros R w.
  assert (H1 : Forall (fun l => l <= idCounter w) (members w 0))
    by (apply (bool_decide_unpack _); vm_compute; exact I).
  assert (H2 : Forall (fun l => primaryKey (objs w l) = "id") (members w 0))
    by (apply (bool_decide_unpack _); vm_compute; exact I).
  assert (H3 : Forall (fun r => class_primaryKey (model (colls w 0) r) = "id") R)
    by (apply (bool_decide_unpack _); vm_compute; exact I).
  assert (H4 : Forall (fun r => carries_primitive_id r = true) R)
    by (apply (bool_decide_unpack _); vm_compute; exact I).
  split; [exact H1|]. split; [exact H2|]. split; [exact H3|].
  split; [exact H4|].
  exact (set_reconciles_members 0 R w H1 H2 H3 H4).
Defined.

(** The reconciliation of the scenario above, evaluated: the member with
    id [2] stays, the members with ids [1] and [3] go, and one member is
    built for the incoming id [4]. *)
Example reconcile_items_run :
  let R : list obj :=
    [ {[ "id" := VNum 4; "name" := VStr "four" ]};
      {[ "id" := VNum 2; "name" := VStr "two" ]};
      {[ "id" := VNum 4 ]} ] in
  let w' := Collection.set 0 R Collection.defaultSetOptions items_world in
  members items_world 0 = [1; 2; 3]
  /\ members w' 0 = [2; 4]
  /\ map (idof w') (members w' 0) = [VNum 2; VNum 4]
  /\ attributes (objs w' 2) !! "name" = Some (VStr "two").
Proof. repeat split; vm_compute; reflexivity. Qed.

(** * Further properties *)

(** ** Change tracking *)

Module ChangeFacts.
Import JS Lodash Deepmerge Store Model Spec JSFacts DiffFacts ModelFacts.

Lemma getChangesBetween_same (a : obj) : getChangesBetween a a = ∅.
Proof.
  apply map_eq. intros k. rewrite getChangesBetween_lookup, lookup_empty.
  unfold isEqual. by rewrite bool_decide_eq_true_2.
Qed.

Lemma changed_key_iff (source target : obj) key :
  key ∈ getChangedAttributesBetween source target
  <-> prop source key <> prop target key.
Proof.
  rewrite getChangedAttributesBetween_spec, getChangesBetween_lookup.
  unfold isEqual. case_bool_decide as E.
  - split; [by intros [? ?] | done].
  - split; [done | by eauto].
Qed.

Lemma no_changed_key_iff (source target : obj) :
  getChangedAttributesBetween source target = []
  <-> forall key, prop source key = prop target key.
Proof.
  split.
  - intros H key. destruct (decide (prop source key = prop target key)) as [|Hne];
      [done|].
    apply changed_key_iff in Hne. rewrite H in Hne. by apply elem_of_nil in Hne.
  - intros H. destruct (getChangedAttributesBetween source target) as [|k ks] eqn:E;
      [done|].
    assert (Hk : k ∈ getChangedAttributesBetween source target)
      by (rewrite E; left).
    apply changed_key_iff in Hk. by destruct Hk.
Qed.

Lemma hasChanges_None (m : Model) :
  hasChanges m None = false <-> changedAttributes m = [].
Proof.
  unfold hasChanges. destruct (changedAttributes m); simpl; split; done.
Qed.

Lemma deepmerge_into f (tv : value) (s : obj) :
  deepmerge f tv (VObj s)
  = match tv with
    | VArr _ => VObj s
    | VObj t => VObj (mergeObject f t s)
    | _ => VObj s
    end.
Proof. destruct tv; try reflexivity; simpl; f_equal; apply mergeObject_empty. Qed.

Lemma mergeObject_self (a : obj) :
  mergeObject dontMergeArrays a a = a.
Proof.
  induction a as [a IH] using obj_ind.
  apply map_eq. intros k. rewrite mergeObject_lookup. unfold prop.
  destruct (a !! k) as [v|] eqn:Hk; [|done]. simpl. f_equal.
  destruct (isMergeableObject v && truthy v); [|done].
  destruct v as [| | | | | |o]; try done.
  rewrite deepmerge_obj. f_equal. by apply (IH k).
Qed.

Lemma mergeObject_idempotent (b : obj) :
  forall a : obj,
    mergeObject dontMergeArrays (mergeObject dontMergeArrays a b) b
    = mergeObject dontMergeArrays a b.
Proof.
  induction b as [b IH] using obj_ind. intros a.
  apply map_eq. intros k. rewrite !mergeObject_lookup. unfold prop.
  rewrite mergeObject_lookup.
  destruct (b !! k) as [sv|] eqn:Hb; [|done]. simpl. f_equal.
  unfold prop. generalize (default VUndef (a !! k)). intros tv.
  destruct sv as [| | | | |new|s]; try done.
  - (* an array replaces whatever is there, twice *)
    rewrite !deepmerge_replaces by (simpl; apply andb_false_r).
    by repeat case_match.
  - (* a nested object is merged into the result of the first merge *)
    cbn [isMergeableObject andb]. rewrite (deepmerge_into _ tv s).
    destruct tv as [| | | | |old|t]; cbn [truthy];
      repeat case_match; rewrite ?deepmerge_obj; f_equal;
      try apply mergeObject_self.
    by apply (IH k).
Qed.

Lemma url_throws (this : loc) (w : World) :
  has_root this w = false -> exists msg, url this w = Throw msg.
Proof.
  unfold has_root, url, collection_url, nonempty.
  destruct (objs w this) as [pk root defs attrs comm oid coll]; simpl.
  intros Hroot. repeat (case_match; simplify_eq/=); eauto.
  all: match goal with
       | E : context [String.eqb ?x ""] |- _ =>
           destruct (String.eqb x ""); simpl in *; done
       end.
Qed.

Lemma save_world (this : loc) (attrs : option obj) (o : SaveOptions)
    (w : World) :
  world_of (save this attrs o w) = after_optimistic_write this attrs o w.
Proof.
  unfold save. fold (after_optimistic_write this attrs o w).
  by destruct (url this _).
Qed.

Lemma save_pending (this : loc) (attrs : option obj) (o : SaveOptions)
    (w : World) r p w1 :
  save this attrs o w = Returned (r, p) w1 ->
  p = mkSavePending this (toJS (objs w this)) (keepChanges o)
  /\ w1 = after_optimistic_write this attrs o w.
Proof.
  unfold save. fold (after_optimistic_write this attrs o w).
  destruct (url this _); [|discriminate]. by intros [= _ <- <-].
Qed.

End ChangeFacts.

Import ChangeFacts.

(** X1.  A freshly constructed model holds the given attributes over the
    defaults, reports no changes, has the next [uniqueId] as its local
    identifier and no owning collection; no other object is touched. *)
Theorem new_model_is_committed (cls : ModelClass) (attrs defaults : obj)
    (w : World) :
  let this := (new cls attrs defaults w).1 in
  let w' := (new cls attrs defaults w).2 in
  let m := objs w' this in
  this = S (idCounter w)
  /\ idCounter w' = this
  /\ (forall key, attributes m !! key
                  = match attrs !! key with
                    | Some v => Some v
                    | None => defaults !! key
                    end)
  /\ committedAttributes m = attributes m
  /\ hasChanges m None = false
  /\ changes m = ∅
  /\ optimisticId m = "i_" +:+ pretty (S (idCounter w))
  /\ collection m = None
  /\ forall x, x <> this -> objs w' x = objs w x.
Proof.
  unfold new, uniqueId. simpl. rewrite !fn_lookup_insert. simpl.
  repeat split.
  - intros key. unfold spread. rewrite lookup_union.
    by destruct (attrs !! key), (defaults !! key).
  - unfold hasChanges, changedAttributes. simpl.
    by rewrite getChangedAttributesBetween_same.
  - unfold changes. simpl. apply getChangesBetween_same.
  - intros x Hx. by rewrite fn_lookup_insert_ne.
Qed.

(** X2.  [hasChanges()] is false exactly when working and committed state
    read the same value under every attribute name.  A missing attribute
    reads as [undefined], so an attribute that holds [undefined] on one
    side and is missing on the other is not a change. *)
Theorem hasChanges_false_iff (m : Model) :
  hasChanges m None = false
  <-> forall key,
        prop (committedAttributes m) key = prop (attributes m) key.
Proof.
  rewrite hasChanges_None. unfold changedAttributes.
  apply no_changed_key_iff.
Qed.

(** X3.  [hasChanges(attribute)] tells whether working and committed state
    differ under that attribute; with the empty string as the attribute it
    answers like [hasChanges()]. *)
Theorem hasChanges_of_attribute (m : Model) (a : string) :
  hasChanges m (Some a)
  = if String.eqb a "" then hasChanges m None
    else bool_decide (prop (committedAttributes m) a <> prop (attributes m) a).
Proof.
  unfold hasChanges. destruct (String.eqb a ""); simpl; [done|].
  unfold includes, changedAttributes.
  apply bool_decide_ext, changed_key_iff.
Qed.

(** X4.  The keys of [changes] are exactly the [changedAttributes]; under
    such a key [changes] holds the nested changes when both sides are plain
    objects and the working value otherwise; and [changes] is empty exactly
    when [hasChanges()] is false. *)
Theorem changes_keys_are_changedAttributes (m : Model) :
  (forall key, key ∈ changedAttributes m <-> is_Some (changes m !! key))
  /\ (forall key, key ∈ changedAttributes m ->
        changes m !! key
        = Some (match prop (committedAttributes m) key,
                      prop (attributes m) key with
                | VObj committed, VObj working =>
                    VObj (getChangesBetween committed working)
                | _, working => working
                end))
  /\ (changes m = ∅ <-> hasChanges m None = false).
Proof.
  split; [|split].
  - intros key. apply getChangedAttributesBetween_spec.
  - intros key Hkey. unfold changes, changedAttributes in *.
    apply changed_key_iff in Hkey. rewrite getChangesBetween_lookup.
    unfold isEqual. rewrite bool_decide_eq_false_2 by done. f_equal.
    by destruct (prop (committedAttributes m) key),
         (prop (attributes m) key).
  - rewrite hasChanges_None. unfold changes, changedAttributes. split.
    + intros H.
      destruct (getChangedAttributesBetween (committedAttributes m)
                  (attributes m)) as [|k ks] eqn:E; [done|].
      assert (Hk : k ∈ getChangedAttributesBetween (committedAttributes m)
                         (attributes m)) by (rewrite E; left).
      apply getChangedAttributesBetween_spec in Hk. rewrite H in Hk.
      rewrite lookup_empty in Hk. by destruct Hk.
    + intros H. apply map_eq. intros key. rewrite lookup_empty.
      destruct (getChangesBetween (committedAttributes m) (attributes m)
                  !! key) eqn:E; [|done].
      assert (Hk : key ∈ getChangedAttributesBetween (committedAttributes m)
                           (attributes m))
        by (apply getChangedAttributesBetween_spec; eauto).
      rewrite H in Hk. by apply elem_of_nil in Hk.
Qed.

(** X5.  [set] writes every key of the data and keeps every other
    attribute: reading an attribute afterwards yields the data's value when
    the data has the key and what was there before otherwise (the error
    included).  The committed state is not touched. *)
Theorem get_after_set (m : Model) (data : obj) (a : string) :
  get (set data m) a
  = match data !! a with
    | Some v => Ok v
    | None => get m a
    end
  /\ committedAttributes (set data m) = committedAttributes m.
Proof.
  split; [|done]. unfold get, set. simpl. rewrite lookup_union.
  by destruct (data !! a), (attributes m !! a).
Qed.

(** X6.  [discardChanges] after [set] puts working state back to the
    committed state, whatever [set] wrote, and [hasChanges()] is false
    again. *)
Theorem discardChanges_undoes_set (m : Model) (data : obj) :
  attributes (discardChanges (set data m)) = committedAttributes m
  /\ committedAttributes (discardChanges (set data m)) = committedAttributes m
  /\ hasChanges (discardChanges (set data m)) None = false.
Proof.
  split; [done|]. split; [done|].
  apply hasChanges_None. unfold changedAttributes. simpl.
  apply getChangedAttributesBetween_same.
Qed.

(** X7.  [url] returns exactly when a non-empty root can be resolved (from
    the class, else from the owning collection) and throws otherwise.  The
    URL is the root alone for a new model and the root followed by [/] and
    the primary-key value for a persisted one. *)
Theorem url_returns_iff_root (this : loc) (w : World) :
  match url this w with
  | Ok u =>
      has_root this w = true
      /\ u = (if isNew (objs w this) then root_of this w
              else root_of this w +:+ "/" +:+ toString (id (objs w this)))
  | Throw _ => has_root this w = false
  end.
Proof.
  destruct (has_root this w) eqn:Hroot.
  - rewrite url_resolves by done. split; [done|].
    unfold isNew, id, prop.
    by destruct (attributes (objs w this) !! primaryKey (objs w this)).
  - by destruct (url_throws this w Hroot) as [msg ->].
Qed.

(** X8.  [applyPatchChanges] never drops a key: the result has the keys of
    both arguments.  A key only the old attributes have keeps its value.  A
    key of the changes takes the value from the changes, arrays included,
    unless both sides hold a plain object there, in which case the two
    objects are merged in the same way. *)
Theorem applyPatchChanges_lookup (old changes : obj) (key : string) :
  (is_Some (applyPatchChanges old changes !! key)
   <-> is_Some (old !! key) \/ is_Some (changes !! key))
  /\ (changes !! key = None ->
      applyPatchChanges old changes !! key = old !! key)
  /\ (forall v, changes !! key = Some v ->
        isPlainObject (prop old key) && isPlainObject v = false ->
        applyPatchChanges old changes !! key = Some v)
  /\ (forall o c, old !! key = Some (VObj o) ->
        changes !! key = Some (VObj c) ->
        applyPatchChanges old changes !! key
        = Some (VObj (applyPatchChanges o c))).
Proof.
  unfold applyPatchChanges. rewrite mergeObject_lookup.
  split; [|split; [|split]].
  - destruct (changes !! key) as [v|].
    + split; [by eauto | by eauto].
    + split; [by left | by intros [?|[? ?]]].
  - by intros ->.
  - intros v -> Hv. f_equal.
    destruct (isMergeableObject v && truthy (prop old key)); [|done].
    by apply deepmerge_replaces.
  - intros o c Ho ->. unfold prop. rewrite Ho. done.
Qed.

Lemma applyPatchChanges_lookup_witness :
  let old : obj := {[ "tags" := VArr [VStr "a"; VStr "b"];
                      "meta" := VObj {[ "x" := VNum 1 ]} ]} in
  let changes : obj := {[ "tags" := VArr [VStr "c"];
                          "meta" := VObj {[ "y" := VNum 2 ]} ]} in
  applyPatchChanges old changes !! "tags" = Some (VArr [VStr "c"])
  /\ applyPatchChanges old changes !! "meta"
     = Some (VObj (applyPatchChanges {[ "x" := VNum 1 ]} {[ "y" := VNum 2 ]})).
Proof.
  intros old changes. split.
  - apply (proj1 (proj2 (proj2 (applyPatchChanges_lookup old changes "tags")))
             (VArr [VStr "c"])); reflexivity.
  - apply (proj2 (proj2 (proj2 (applyPatchChanges_lookup old changes "meta")))
             {[ "x" := VNum 1 ]} {[ "y" := VNum 2 ]}); reflexivity.
Defined.

(** X9.  Applying the same changes a second time changes nothing. *)
Theorem applyPatchChanges_idempotent (old changes : obj) :
  applyPatchChanges (applyPatchChanges old changes) changes
  = applyPatchChanges old changes.
Proof. apply mergeObject_idempotent. Qed.

(** X10.  The diff of an object with itself is empty, and the diff of two
    objects has an entry exactly under the keys where they read different
    values. *)
Theorem getChangesBetween_entry_iff (source target : obj) (key : string) :
  getChangesBetween source source = ∅
  /\ (is_Some (getChangesBetween source target !! key)
      <-> prop source key <> prop target key).
Proof.
  split; [apply getChangesBetween_same|].
  rewrite <- getChangedAttributesBetween_spec. apply changed_key_iff.
Qed.

(** ** Saving, fetching and destroying *)

(** X11.  The optimistic write of [save] happens before the request is
    built, whether [save] then returns or throws.  It leaves the committed
    state alone, keeps every attribute that the given attributes do not
    name, and writes the given values; with [patch], where working state
    and the given attributes both hold a plain object under a key, the two
    are merged, and without [patch] the given object replaces the old
    one. *)
Theorem save_optimistic_write (this : loc) (given_attributes : obj)
    (o : SaveOptions) (w : World) :
  optimistic o = true ->
  let m := objs w this in
  let m1 := objs (world_of (save this (Some given_attributes) o w)) this in
  committedAttributes m1 = committedAttributes m
  /\ (forall key, given_attributes !! key = None ->
        attributes m1 !! key = attributes m !! key)
  /\ (forall key v, given_attributes !! key = Some v ->
        patch o = false
        \/ isPlainObject (prop (attributes m) key) && isPlainObject v = false ->
        attributes m1 !! key = Some v)
  /\ (forall key old new, patch o = true ->
        attributes m !! key = Some (VObj old) ->
        given_attributes !! key = Some (VObj new) ->
        attributes m1 !! key = Some (VObj (applyPatchChanges old new))).
Proof.
  intros Hopt m m1. unfold m1. rewrite save_world.
  unfold after_optimistic_write. rewrite Hopt. simpl.
  unfold update_model. simpl. rewrite fn_lookup_insert. fold m.
  unfold set, toJS. simpl.
  split; [done|]. split; [|split].
  - intros key Hkey. rewrite lookup_union.
    destruct (patch o).
    + unfold applyPatchChanges. rewrite mergeObject_lookup, Hkey.
      by destruct (attributes m !! key).
    + rewrite Hkey. by destruct (attributes m !! key).
  - intros key v Hkey Hcase. rewrite lookup_union.
    destruct (patch o).
    + destruct Hcase as [|Hv]; [done|].
      unfold applyPatchChanges. rewrite mergeObject_lookup, Hkey.
      destruct (isMergeableObject v && truthy (prop (attributes m) key)).
      * rewrite deepmerge_replaces by done.
        by destruct (attributes m !! key).
      * by destruct (attributes m !! key).
    + rewrite Hkey. by destruct (attributes m !! key).
  - intros key old new -> Hold Hnew. rewrite lookup_union.
    unfold applyPatchChanges. rewrite mergeObject_lookup, Hnew.
    unfold prop. rewrite Hold. done.
Qed.

Lemma save_optimistic_write_witness :
  let given_attributes : obj :=
    {[ "name" := VStr "b"; "meta" := VObj {[ "y" := VNum 3 ]} ]} in
  let m := objs item_world 1 in
  let m1 := objs (world_of (save 1 (Some given_attributes)
                              defaultSaveOptions item_world)) 1 in
  optimistic defaultSaveOptions = true
  /\ committedAttributes m1 = committedAttributes m
  /\ attributes m1 !! "id" = attributes m !! "id"
  /\ attributes m1 !! "name" = Some (VStr "b")
  /\ attributes m1 !! "meta"
     = Some (VObj (applyPatchChanges {[ "x" := VNum 1; "y" := VNum 2 ]}
                     {[ "y" := VNum 3 ]})).
Proof.
  intros given_attributes m m1.
  destruct (save_optimistic_write 1 given_attributes defaultSaveOptions
              item_world eq_refl) as (H1 & H2 & H3 & H4).
  split; [reflexivity|]. split; [exact H1|]. split.
  - apply H2. reflexivity.
  - split.
    + apply H3; [reflexivity | right; reflexivity].
    + apply H4; reflexivity.
Defined.

(** X12.  [save] returns a request exactly when a root URL can be
    resolved and throws otherwise; the URL is resolved after the
    optimistic write, so the write is in the world that [save] leaves
    behind also when it throws. *)
Theorem save_returns_iff_root (this : loc) (attrs : option obj)
    (o : SaveOptions) (w : World) :
  match save this attrs o w with
  | Returned _ _ => has_root this w = true
  | Thrown _ _ => has_root this w = false
  end
  /\ world_of (save this attrs o w) = after_optimistic_write this attrs o w.
Proof.
  split; [|apply save_world].
  destruct (has_root this w) eqn:Hroot.
  - by destruct (save_returns this attrs o w Hroot) as (r & -> & _).
  - unfold save. fold (after_optimistic_write this attrs o w).
    destruct (url_throws this (after_optimistic_write this attrs o w))
      as [msg ->]; [|done].
    by rewrite has_root_after_optimistic_write.
Qed.

(** X13.  Without [optimistic], or without attributes, the synchronous
    part of [save] changes nothing. *)
Theorem save_without_optimistic_write (this : loc) (attrs : option obj)
    (o : SaveOptions) (w : World) :
  optimistic o = false \/ attrs = None ->
  world_of (save this attrs o w) = w.
Proof.
  intros H. rewrite save_world. unfold after_optimistic_write.
  destruct H as [-> | ->]; [done|]. by rewrite andb_false_r.
Qed.

Lemma save_without_optimistic_write_witness :
  (optimistic (mkSaveOptions false true false) = false \/
   Some ({[ "name" := VStr "b" ]} : obj) = None)
  /\ world_of (save 1 (Some {[ "name" := VStr "b" ]})
                 (mkSaveOptions false true false) item_world)
     = item_world.
Proof.
  split; [left; reflexivity|].
  apply (save_without_optimistic_write 1 (Some {[ "name" := VStr "b" ]})
           (mkSaveOptions false true false) item_world).
  left; reflexivity.
Defined.

(** X14.  When a [save] with [keepChanges] succeeds, the committed state
    is the response merged over working state as it is when the response
    arrives.  In working state, an attribute that still reads as in the
    snapshot taken by [save] takes the server's value, and an attribute
    that was changed since (by the optimistic write or while the request
    was in flight) to a value that is not a plain object keeps that value,
    so it shows up as a change again. *)
Theorem save_success_keeps_changes (this : loc) (attrs : option obj)
    (o : SaveOptions) (w : World) (r : Request) (p : SavePending)
    (w1 : World) (data : obj) (w2 : World) :
  keepChanges o = true ->
  save this attrs o w = Returned (r, p) w1 ->
  let snapshot := attributes (objs w this) in
  let working := attributes (objs w2 this) in
  let m' := objs (save_then p data w2) this in
  committedAttributes m' = spread working data
  /\ (forall key, prop snapshot key = prop working key ->
        attributes m' !! key = spread working data !! key)
  /\ (forall key v, working !! key = Some v ->
        prop snapshot key <> v ->
        isPlainObject v = false ->
        attributes m' !! key = Some v).
Proof.
  intros Hkeep Hsave snapshot working m'.
  apply save_pending in Hsave as [-> _].
  unfold m', save_then, update_model. simpl. rewrite Hkeep, fn_lookup_insert.
  unfold set, commitChanges, toJS. simpl. fold working. fold snapshot.
  split; [done|]. split.
  - intros key Hsame. rewrite lookup_union.
    unfold applyPatchChanges.
    rewrite mergeObject_lookup, getChangesBetween_lookup.
    unfold isEqual. rewrite bool_decide_eq_true_2 by done.
    unfold spread. rewrite lookup_union.
    by destruct (data !! key), (working !! key).
  - intros key v Hv Hne Hobj. rewrite lookup_union.
    unfold applyPatchChanges.
    rewrite mergeObject_lookup, getChangesBetween_lookup.
    assert (Hp : prop working key = v) by (unfold prop; by rewrite Hv).
    unfold isEqual. rewrite Hp.
    rewrite bool_decide_eq_false_2 by done.
    rewrite Hobj, andb_false_r.
    destruct (isMergeableObject v && truthy (prop data key)).
    + rewrite deepmerge_replaces by by rewrite Hobj, andb_false_r.
      by destruct ((data ∪ working) !! key).
    + by destruct ((data ∪ working) !! key).
Qed.

Lemma save_success_keeps_changes_witness :
  let attrs := Some ({[ "name" := VStr "b" ]} : obj) in
  let o := mkSaveOptions true true true in
  let p := mkSavePending 1 (toJS (objs item_world 1)) (keepChanges o) in
  let w1 := after_optimistic_write 1 attrs o item_world in
  let r := mkRequest PATCH "/items/1" {[ "name" := VStr "b" ]} "updating" in
  let data : obj := {[ "id" := VNum 1; "name" := VStr "B" ]} in
  keepChanges o = true /\
  save 1 attrs o item_world = Returned (r, p) w1 /\
  attributes (objs w1 1) !! "name" = Some (VStr "b") /\
  prop (attributes (objs item_world 1)) "name" <> VStr "b" /\
  isPlainObject (VStr "b") = false /\
  attributes (objs (save_then p data w1) 1) !! "name" = Some (VStr "b") /\
  committedAttributes (objs (save_then p data w1) 1)
  = spread (attributes (objs w1 1)) data.
Proof.
  intros attrs o p w1 r data.
  assert (Hsave : save 1 attrs o item_world = Returned (r, p) w1)
    by (vm_compute; reflexivity).
  assert (Hname : attributes (objs w1 1) !! "name" = Some (VStr "b"))
    by (vm_compute; reflexivity).
  assert (Hne : prop (attributes (objs item_world 1)) "name" <> VStr "b")
    by (vm_compute; discriminate).
  destruct (save_success_keeps_changes 1 attrs o item_world r p w1 data w1
              eq_refl Hsave) as (Hc & _ & Hk).
  split; [reflexivity|]. split; [exact Hsave|]. split; [exact Hname|].
  split; [exact Hne|]. split; [reflexivity|].
  split; [exact (Hk "name" (VStr "b") Hname Hne eq_refl) | exact Hc].
Defined.

(** X15.  When a [save] fails, every attribute of the snapshot taken by
    [save] has its snapshot value again, and the committed state is not
    touched.  If working state holds no attribute that the snapshot lacks,
    working state is the snapshot again. *)
Theorem save_failure_restores_snapshot_keys (this : loc)
    (attrs : option obj) (o : SaveOptions) (w : World) (r : Request)
    (p : SavePending) (w1 w2 : World) :
  save this attrs o w = Returned (r, p) w1 ->
  let snapshot := attributes (objs w this) in
  let m' := objs (save_catch p w2) this in
  (forall key v, snapshot !! key = Some v -> attributes m' !! key = Some v)
  /\ committedAttributes m' = committedAttributes (objs w2 this)
  /\ ((forall key, is_Some (attributes (objs w2 this) !! key) ->
                   is_Some (snapshot !! key)) ->
      attributes m' = snapshot).
Proof.
  intros Hsave snapshot m'. apply save_pending in Hsave as [-> _].
  unfold m', save_catch, update_model. simpl. rewrite fn_lookup_insert.
  unfold set, toJS. simpl. fold snapshot.
  split; [|split; [done|]].
  - intros key v Hv. by apply lookup_union_Some_l.
  - intros Hsub. apply map_eq. intros key. rewrite lookup_union.
    destruct (snapshot !! key) as [v|] eqn:Hs.
    + by destruct (attributes (objs w2 this) !! key).
    + destruct (attributes (objs w2 this) !! key) as [v'|] eqn:Hw; [|done].
      destruct (Hsub key) as [? ?]; [by eauto | congruence].
Qed.

Lemma save_failure_restores_snapshot_keys_witness :
  let attrs := Some ({[ "name" := VStr "b" ]} : obj) in
  let o := defaultSaveOptions in
  let p := mkSavePending 1 (toJS (objs item_world 1)) (keepChanges o) in
  let w1 := after_optimistic_write 1 attrs o item_world in
  let r := mkRequest PATCH "/items/1" {[ "name" := VStr "b" ]} "updating" in
  save 1 attrs o item_world = Returned (r, p) w1 /\
  attributes (objs item_world 1) !! "name" = Some (VStr "a") /\
  attributes (objs (save_catch p w1) 1) !! "name" = Some (VStr "a").
Proof.
  intros attrs o p w1 r.
  assert (Hsave : save 1 attrs o item_world = Returned (r, p) w1)
    by (vm_compute; reflexivity).
  split; [exact Hsave|]. split; [reflexivity|].
  apply (proj1 (save_failure_restores_snapshot_keys 1 attrs o item_world r p
                  w1 w1 Hsave) "name" (VStr "a")).
  reflexivity.
Defined.

(** X16.  [fetch] on a model never changes state by itself: it returns the
    GET request when a root URL can be resolved and throws otherwise.  When
    the response arrives, it is merged over working state and the result
    is committed, so the model reports no changes; local edits to
    attributes that the response does not name are committed with it. *)
Theorem fetch_commits_response (this : loc) (query : option obj)
    (data : obj) (w w2 : World) :
  world_of (fetch this query w) = w
  /\ match fetch this query w with
     | Returned r _ => has_root this w = true /\ req_method r = GET
     | Thrown _ _ => has_root this w = false
     end
  /\ let m' := objs (fetch_then this data w2) this in
     attributes m' = spread (attributes (objs w2 this)) data
     /\ committedAttributes m' = attributes m'
     /\ hasChanges m' None = false.
Proof.
  unfold fetch. split; [by destruct (url this w)|]. split.
  - destruct (has_root this w) eqn:Hroot.
    + by rewrite url_resolves.
    + by destruct (url_throws this w Hroot) as [msg ->].
  - unfold fetch_then, update_model. simpl. rewrite fn_lookup_insert.
    split; [done|]. split; [done|]. apply hasChanges_commitChanges.
Qed.

(** ** Membership *)

Module MemberFacts.
Import JS Lodash Store Spec ModelFacts CollectionFacts ChangeFacts.

Lemma indexOf_absent (x : loc) (xs : list loc) :
  x ∉ xs -> Collection.indexOf x xs = (-1)%Z.
Proof.
  induction xs as [|y xs IH]; intros Hx; [done|]. simpl.
  apply not_elem_of_cons in Hx as [Hne Hx].
  rewrite (proj2 (Nat.eqb_neq y x)) by done. by rewrite IH.
Qed.

Lemma splice1_last (init : list loc) (x : loc) :
  Collection.splice1 (-1) (init ++ [x]) = init.
Proof.
  unfold Collection.splice1. simpl (_ <? _)%Z. cbn iota.
  rewrite length_app. simpl.
  replace (Z.to_nat (Z.max (Z.of_nat (List.length init + 1) + -1) 0))
    with (List.length init) by lia.
  rewrite delete_middle. apply app_nil_r.
Qed.

Lemma remove_one_owner (c : cref) (this : loc) (w : World) :
  collection (objs w this) = Some c ->
  collection (objs (Collection.remove c [Collection.AModel this] w) this)
  = None.
Proof.
  intros Hc. unfold Collection.remove, Collection.remove_one. simpl.
  rewrite bool_decide_eq_true_2 by done.
  unfold update_model. simpl. by rewrite fn_lookup_insert.
Qed.

Lemma remove_one_same_models (c : cref) (id : Collection.IdOrModel)
    (w : World) :
  same_models c w (Collection.remove_one c id w).
Proof.
  unfold Collection.remove_one.
  destruct (match id with
            | Collection.AnId v =>
                if is_number_or_string v then Collection.get c v w else None
            | Collection.AModel l =>
                if bool_decide (collection (objs w l) = Some c)
                then Some l else None
            end) as [l|]; [|apply same_models_refl].
  split; [done|]. split.
  - unfold update_model, update_collection. simpl.
    by rewrite fn_lookup_insert.
  - intros x. unfold update_model, update_collection. simpl.
    destruct (decide (l = x)) as [->|Hne].
    + by rewrite fn_lookup_insert.
    + by rewrite fn_lookup_insert_ne.
Qed.

Lemma remove_one_sublist (c : cref) (id : Collection.IdOrModel) (w : World) :
  members (Collection.remove_one c id w) c `sublist_of` members w c.
Proof.
  unfold Collection.remove_one.
  destruct (match id with
            | Collection.AnId v =>
                if is_number_or_string v then Collection.get c v w else None
            | Collection.AModel l =>
                if bool_decide (collection (objs w l) = Some c)
                then Some l else None
            end) as [l|]; [|done].
  unfold members, update_model, update_collection. simpl.
  rewrite fn_lookup_insert. simpl. unfold Collection.splice1.
  apply sublist_delete.
Qed.

Lemma remove_same_models (c : cref) (ids : list Collection.IdOrModel) :
  forall w, same_models c w (Collection.remove c ids w).
Proof.
  induction ids as [|id ids IH]; intros w; [apply same_models_refl|].
  simpl. eapply same_models_trans; [apply remove_one_same_models | apply IH].
Qed.

Lemma remove_sublist (c : cref) (ids : list Collection.IdOrModel) :
  forall w, members (Collection.remove c ids w) c `sublist_of` members w c.
Proof.
  induction ids as [|id ids IH]; intros w; [done|].
  simpl. etrans; [apply IH | apply remove_one_sublist].
Qed.

Lemma same_models_attributes c w w' l :
  same_models c w w' ->
  attributes (objs w' l) = attributes (objs w l)
  /\ committedAttributes (objs w' l) = committedAttributes (objs w l).
Proof.
  intros (_ & _ & H). specialize (H l).
  destruct (objs w' l), (objs w l). unfold with_collection in H. simpl in *.
  by inversion H.
Qed.

(** What one [build] does to the world. *)
Lemma build_spec (c : cref) (a : Collection.AttributesOrModel) (w : World) :
  let l := (Collection.build c a w).1 in
  let w' := (Collection.build c a w).2 in
  colls w' = colls w
  /\ collection (objs w' l) = Some c
  /\ idCounter w <= idCounter w'
  /\ (forall x, collection (objs w x) = Some c ->
                collection (objs w' x) = Some c)
  /\ (forall x, x <= idCounter w -> x <> l -> objs w' x = objs w x).
Proof.
  destruct a as [attrs|l]; simpl.
  - unfold update_model. simpl. rewrite !fn_lookup_insert. simpl.
    split; [done|]. split; [done|]. split; [lia|]. split.
    + intros x Hx. destruct (decide (S (idCounter w) = x)) as [<-|Hne].
      * by rewrite fn_lookup_insert.
      * by rewrite !fn_lookup_insert_ne.
    + intros x Hx Hne. by rewrite !fn_lookup_insert_ne.
  - unfold update_model. simpl. rewrite fn_lookup_insert. simpl.
    split; [done|]. split; [done|]. split; [lia|]. split.
    + intros x Hx. destruct (decide (l = x)) as [<-|Hne].
      * by rewrite fn_lookup_insert.
      * by rewrite fn_lookup_insert_ne.
    + intros x Hx Hne. by rewrite fn_lookup_insert_ne.
Qed.

Lemma build_all_spec (c : cref) (data : list Collection.AttributesOrModel) :
  forall w : World,
    let built := (Collection.build_all c data w).1 in
    let w' := (Collection.build_all c data w).2 in
    colls w' = colls w
    /\ List.length built = List.length data
    /\ Forall (fun l => collection (objs w' l) = Some c) built
    /\ idCounter w <= idCounter w'
    /\ (forall x, collection (objs w x) = Some c ->
                  collection (objs w' x) = Some c).
Proof.
  induction data as [|a data IH]; intros w; simpl.
  - repeat split; [constructor | lia | done].
  - destruct (build_spec c a w) as (Hc & Hown & Hle & Hkeep & _).
    destruct (Collection.build c a w) as [l w1]. simpl in *.
    destruct (IH w1) as (Hc' & Hlen & Hall & Hle' & Hkeep').
    destruct (Collection.build_all c data w1) as [ls w2]. simpl in *.
    split; [congruence|]. split; [by rewrite Hlen|]. split.
    + constructor; [by apply Hkeep' | done].
    + split; [lia|]. intros x Hx. by apply Hkeep', Hkeep.
Qed.

Lemma add_spec (c : cref) (data : list Collection.AttributesOrModel)
    (w : World) :
  let built := (Collection.add c data w).1 in
  let w' := (Collection.add c data w).2 in
  members w' c = members w c ++ built
  /\ List.length built = List.length data
  /\ Forall (fun l => collection (objs w' l) = Some c) built
  /\ idCounter w <= idCounter w'.
Proof.
  unfold Collection.add.
  destruct (build_all_spec c data w) as (Hc & Hlen & Hall & Hle & _).
  destruct (Collection.build_all c data w) as [built w1]. simpl in *.
  unfold members, update_collection. simpl. rewrite fn_lookup_insert. simpl.
  by rewrite Hc.
Qed.

(** Building from raw attributes allocates consecutive addresses. *)
Lemma build_all_attributes (c : cref) (rs : list obj) :
  forall w : World,
    let built := (Collection.build_all c (map Collection.Attributes rs) w).1 in
    let w' := (Collection.build_all c (map Collection.Attributes rs) w).2 in
    built = seq (S (idCounter w)) (List.length rs)
    /\ idCounter w' = idCounter w + List.length rs
    /\ colls w' = colls w
    /\ (forall x, x <= idCounter w -> objs w' x = objs w x)
    /\ (forall i r, rs !! i = Some r ->
          attributes (objs w' (S (idCounter w) + i)) = r
          /\ committedAttributes (objs w' (S (idCounter w) + i)) = r
          /\ collection (objs w' (S (idCounter w) + i)) = Some c).
Proof.
  induction rs as [|r rs IH]; intros w; simpl.
  - split; [done|]. split; [lia|]. split; [done|]. split; [done|].
    intros i r. by rewrite lookup_nil.
  - set (w1 := update_model (S (idCounter w)) (with_collection (Some c))
                 (mkWorld
                    (<[S (idCounter w) :=
                         mkModel (class_primaryKey (model (colls w c) r))
                           (class_urlRoot (model (colls w c) r)) ∅
                           (spread ∅ r) (spread ∅ r)
                           ("i_" +:+ pretty (S (idCounter w))) None]>
                       (objs w))
                    (colls w) (S (idCounter w)))).
    destruct (IH w1) as (Hb & Hcnt & Hc & Hold & Hnew).
    destruct (Collection.build_all c (map Collection.Attributes rs) w1)
      as [ls w2]. simpl in *.
    assert (Hobj1 : attributes (objs w1 (S (idCounter w))) = r
                    /\ committedAttributes (objs w1 (S (idCounter w))) = r
                    /\ collection (objs w1 (S (idCounter w))) = Some c).
    { unfold w1, update_model. simpl. rewrite !fn_lookup_insert. simpl.
      unfold spread. by rewrite (right_id_L ∅ (∪)). }
    split; [by rewrite Hb|]. split; [lia|]. split; [done|]. split.
    + intros x Hx. rewrite Hold by lia.
      unfold w1, update_model. simpl. by rewrite !fn_lookup_insert_ne by lia.
    + intros i r' Hi. destruct i as [|i]; simpl in Hi.
      * injection Hi as <-. rewrite Nat.add_0_r, Hold by lia. exact Hobj1.
      * rewrite Nat.add_succ_r. exact (Hnew i r' Hi).
Qed.

End MemberFacts.

Import MemberFacts.

(** X17.  [destroy] on a new model sends nothing, whatever the URL
    configuration: without a collection nothing changes; with one, the
    model is taken out of the member sequence and no longer names the
    collection as its owner. *)
Theorem destroy_new_model (this : loc) (o : DestroyOptions) (w : World) :
  Model.isNew (objs w this) = true ->
  match collection (objs w this) with
  | None => destroy this o w = Returned None w
  | Some c =>
      exists w1,
        destroy this o w = Returned None w1
        /\ collection (objs w1 this) = None
        /\ forall pre post,
             members w c = pre ++ this :: post -> this ∉ pre ->
             members w1 c = pre ++ post
  end.
Proof.
  intros Hnew. unfold destroy. rewrite Hnew.
  destruct (collection (objs w this)) as [c|] eqn:Hc; simpl; [|done].
  eexists. split; [reflexivity|]. split.
  - by apply remove_one_owner.
  - intros pre post Hm Hpre. by apply remove_owned_member.
Qed.

Lemma destroy_new_model_witness :
  Model.isNew (objs zero_items_world 1) = true /\
  exists w1,
    destroy 1 defaultDestroyOptions zero_items_world = Returned None w1
    /\ collection (objs w1 1) = None
    /\ forall pre post,
         members zero_items_world 0 = pre ++ 1 :: post -> 1 ∉ pre ->
         members w1 0 = pre ++ post.
Proof.
  split; [reflexivity|].
  exact (destroy_new_model 1 defaultDestroyOptions zero_items_world eq_refl).
Defined.

(** X18.  Without [optimistic], [destroy] on a persisted model only sends
    the DELETE request: the world is unchanged until the promise settles.
    On success the model is removed from the collection it belonged to
    when [destroy] was called; on failure nothing changes. *)
Theorem destroy_without_optimistic (this : loc) (c : cref)
    (o : DestroyOptions) (w : World) :
  destroy_optimistic o = false ->
  Model.isNew (objs w this) = false ->
  collection (objs w this) = Some c ->
  has_root this w = true ->
  exists r p,
    destroy this o w = Returned (Some (r, p)) w
    /\ Model.req_method r = Model.DELETE
    /\ (forall w2, destroy_catch p w2 = w2)
    /\ (forall w2 pre post,
          collection (objs w2 this) = Some c ->
          members w2 c = pre ++ this :: post -> this ∉ pre ->
          members (destroy_then p w2) c = pre ++ post).
Proof.
  intros Ho Hnew Hc Hroot. unfold destroy. rewrite Hnew, Hc, Ho. simpl.
  rewrite url_resolves by done.
  eexists _, _. split; [reflexivity|]. split; [done|]. split; [done|].
  intros w2 pre post Hc2 Hm Hpre. unfold destroy_then. simpl.
  by apply remove_owned_member.
Qed.

Lemma destroy_without_optimistic_witness :
  destroy_optimistic (mkDestroyOptions None false) = false /\
  Model.isNew (objs items_world 2) = false /\
  collection (objs items_world 2) = Some 0 /\
  has_root 2 items_world = true /\
  exists r p,
    destroy 2 (mkDestroyOptions None false) items_world
      = Returned (Some (r, p)) items_world
    /\ Model.req_method r = Model.DELETE
    /\ (forall w2, destroy_catch p w2 = w2)
    /\ (forall w2 pre post,
          collection (objs w2 2) = Some 0 ->
          members w2 0 = pre ++ 2 :: post -> 2 ∉ pre ->
          members (destroy_then p w2) 0 = pre ++ post).
Proof.
  split; [reflexivity|]. split; [reflexivity|]. split; [reflexivity|].
  split; [reflexivity|].
  exact (destroy_without_optimistic 2 0 (mkDestroyOptions None false)
           items_world eq_refl eq_refl eq_refl eq_refl).
Defined.

(** X19.  [destroy] on a persisted model resolves the URL first: when no
    root URL can be resolved it throws and nothing has been removed, also
    with [optimistic]. *)
Theorem destroy_throws_without_root (this : loc) (o : DestroyOptions)
    (w : World) :
  Model.isNew (objs w this) = false ->
  has_root this w = false ->
  exists msg, destroy this o w = Thrown msg w.
Proof.
  intros Hnew Hroot. unfold destroy. rewrite Hnew. simpl.
  destruct (url_throws this w Hroot) as [msg ->]. by exists msg.
Qed.

Lemma destroy_throws_without_root_witness :
  Model.isNew (objs rootless_world 1) = false /\
  has_root 1 rootless_world = false /\
  exists msg,
    destroy 1 defaultDestroyOptions rootless_world = Thrown msg rootless_world.
Proof.
  split; [reflexivity|]. split; [reflexivity|].
  exact (destroy_throws_without_root 1 defaultDestroyOptions rootless_world
           eq_refl eq_refl).
Defined.

(** ** Collections: adding, resetting, removing, looking up *)

(** X20.  [add] appends the built models to the member sequence in input
    order, one per input item whatever the ids (nothing is deduplicated),
    and every built model names the collection as its owner. *)
Theorem add_appends_built (c : cref)
    (data : list Collection.AttributesOrModel) (w : World) :
  let built := (Collection.add c data w).1 in
  let w' := (Collection.add c data w).2 in
  members w' c = members w c ++ built
  /\ Collection.length c w' = Collection.length c w + List.length data
  /\ Forall (fun l => collection (objs w' l) = Some c) built.
Proof.
  destruct (add_spec c data w) as (Hm & Hlen & Hall & _).
  split; [exact Hm|]. split; [|exact Hall].
  unfold Collection.length. rewrite Hm, length_app. by rewrite Hlen.
Qed.

(** X21.  [reset] replaces the member sequence by models built from the
    data, in order, at fresh consecutive addresses, each holding its
    resource as working and committed state and owned by the collection.
    The models that were members before are not touched: they still name
    the collection as their owner. *)
Theorem reset_replaces_members (c : cref) (data : list obj) (w : World) :
  let w' := Collection.reset c data w in
  members w' c = seq (S (idCounter w)) (List.length data)
  /\ (forall i r, data !! i = Some r ->
        attributes (objs w' (S (idCounter w) + i)) = r
        /\ committedAttributes (objs w' (S (idCounter w) + i)) = r
        /\ collection (objs w' (S (idCounter w) + i)) = Some c)
  /\ (forall x, x <= idCounter w -> objs w' x = objs w x).
Proof.
  unfold Collection.reset.
  destruct (build_all_attributes c data w) as (Hb & _ & _ & Hold & Hnew).
  destruct (Collection.build_all c (map Collection.Attributes data) w)
    as [built w1]. simpl in *.
  unfold members, update_collection. simpl. rewrite fn_lookup_insert. simpl.
  done.
Qed.

(** X22.  [remove] with an id that is a number or a string and that some
    member carries takes out the first member with that id, clears that
    model's owner, and leaves every other model and the order of the
    remaining members as they are. *)
Theorem remove_by_id (c : cref) (v : value) (l : loc) (w : World) :
  is_number_or_string v = true ->
  Collection.get c v w = Some l ->
  let w' := Collection.remove c [Collection.AnId v] w in
  exists pre post,
    members w c = pre ++ l :: post
    /\ Forall (fun x => strict_eq (idof w x) v = false) pre
    /\ members w' c = pre ++ post
    /\ collection (objs w' l) = None
    /\ forall x, x <> l -> objs w' x = objs w x.
Proof.
  intros Hv Hget w'.
  pose proof Hget as Hfind. unfold Collection.get in Hfind.
  apply find_split in Hfind as (pre & post & Hm & Hpre & Heq).
  fold (members w c) in Hm.
  exists pre, post. split; [done|]. split; [done|].
  assert (Hnot : l ∉ pre).
  { intros Hin. rewrite Forall_forall in Hpre. specialize (Hpre l Hin).
    simpl in Hpre. congruence. }
  unfold w', Collection.remove, Collection.remove_one. simpl.
  rewrite Hv, Hget.
  unfold members, update_model, update_collection in *. simpl.
  rewrite !fn_lookup_insert. simpl. rewrite Hm. split.
  - by apply splice1_indexOf_middle.
  - split; [done|]. intros x Hx. by rewrite fn_lookup_insert_ne.
Qed.

Lemma remove_by_id_witness :
  is_number_or_string (VNum 2) = true /\
  Collection.get 0 (VNum 2) items_world = Some 2 /\
  let w' := Collection.remove 0 [Collection.AnId (VNum 2)] items_world in
  exists pre post,
    members items_world 0 = pre ++ 2 :: post
    /\ Forall (fun x => strict_eq (idof items_world x) (VNum 2) = false) pre
    /\ members w' 0 = pre ++ post
    /\ collection (objs w' 2) = None
    /\ forall x, x <> 2 -> objs w' x = objs items_world x.
Proof.
  split; [reflexivity|]. split; [reflexivity|].
  exact (remove_by_id 0 (VNum 2) 2 items_world eq_refl eq_refl).
Defined.

(** X23.  [remove] skips what it cannot resolve and goes on with the rest:
    an id that is neither a number nor a string, an id that no member
    carries, and a model that does not name this collection as its
    owner. *)
Theorem remove_skips_unresolved (c : cref) (id : Collection.IdOrModel)
    (rest : list Collection.IdOrModel) (w : World) :
  match id with
  | Collection.AnId v =>
      is_number_or_string v = false \/ Collection.get c v w = None
  | Collection.AModel l => collection (objs w l) <> Some c
  end ->
  Collection.remove c (id :: rest) w = Collection.remove c rest w.
Proof.
  intros H. unfold Collection.remove. simpl. f_equal.
  unfold Collection.remove_one. destruct id as [v|l].
  - destruct H as [-> | H]; [done|]. rewrite H. by destruct (is_number_or_string v).
  - by rewrite bool_decide_eq_false_2.
Qed.

Lemma remove_skips_unresolved_witness :
  (is_number_or_string (VNum 7) = false \/
   Collection.get 0 (VNum 7) items_world = None) /\
  Collection.remove 0 [Collection.AnId (VNum 7); Collection.AnId (VNum 2)]
    items_world
  = Collection.remove 0 [Collection.AnId (VNum 2)] items_world.
Proof.
  split; [right; reflexivity|].
  apply (remove_skips_unresolved 0 (Collection.AnId (VNum 7))
           [Collection.AnId (VNum 2)] items_world).
  right; reflexivity.
Defined.

(** X24.  [remove] with a model that names the collection as its owner but
    is not among its members (built but never added, or a member before a
    [reset]) takes out the last member: [indexOf] yields [-1] and
    [splice(-1, 1)] deletes the last element. *)
Theorem remove_unlisted_model_removes_last (c : cref) (l last : loc)
    (init : list loc) (w : World) :
  collection (objs w l) = Some c ->
  l ∉ members w c ->
  members w c = init ++ [last] ->
  members (Collection.remove c [Collection.AModel l] w) c = init.
Proof.
  intros Hc Hnot Hm. unfold Collection.remove, Collection.remove_one. simpl.
  rewrite bool_decide_eq_true_2 by done.
  unfold members, update_model, update_collection in *. simpl.
  rewrite fn_lookup_insert. simpl.
  rewrite indexOf_absent by done. rewrite Hm. apply splice1_last.
Qed.

Lemma remove_unlisted_model_removes_last_witness :
  let w := (Collection.build 0 (Collection.Attributes {[ "id" := VNum 9 ]})
              items_world).2 in
  collection (objs w 4) = Some 0 /\
  (4 ∉ members w 0) /\
  members w 0 = [1; 2] ++ [3] /\
  members (Collection.remove 0 [Collection.AModel 4] w) 0 = [1; 2].
Proof.
  intros w.
  assert (Hnot : 4 ∉ members w 0)
    by (apply (bool_decide_unpack _); vm_compute; exact I).
  split; [reflexivity|]. split; [exact Hnot|]. split; [reflexivity|].
  exact (remove_unlisted_model_removes_last 0 4 3 [1; 2] w eq_refl Hnot
           eq_refl).
Defined.

(** ** Collections: lookup, reconciliation options, create *)

Module ReconcileFacts.
Import JS Lodash Store Spec ModelFacts CollectionFacts ChangeFacts MemberFacts.

Lemma find_none_forall (P : loc -> bool) (xs : list loc) :
  List.find P xs = None -> Forall (fun x => P x = false) xs.
Proof.
  induction xs as [|x xs IH]; [constructor|]. simpl.
  destruct (P x) eqn:Px; [done|]. intros H. constructor; auto.
Qed.

(** What one round of the loop of [set] does to the members, the counter
    and the allocated objects. *)
Lemma set_one_members (c : cref) (o : Collection.SetOptions) (w : World)
    (r : obj) :
  let w' := Collection.set_one c o w r in
  exists added,
    members w' c = members w c ++ added
    /\ idCounter w <= idCounter w'
    /\ (Collection.opt_add o = false -> added = [] /\ idCounter w' = idCounter w)
    /\ (Collection.opt_change o = false ->
        forall x, x <= idCounter w -> objs w' x = objs w x).
Proof.
  unfold Collection.set_one.
  destruct (Collection.get c (prop r "id") w) as [l|].
  - exists []. rewrite app_nil_r.
    destruct (Collection.opt_change o); simpl; repeat split; done.
  - destruct (Collection.opt_add o).
    + destruct (add_attributes c r w) as (Hm & Hc & _ & Hobjs & _).
      exists [S (idCounter w)]. split; [done|]. split; [lia|].
      split; [done|]. intros _ x Hx. apply Hobjs. lia.
    + exists []. rewrite app_nil_r. repeat split; done.
Qed.

Lemma set_loop_members (c : cref) (o : Collection.SetOptions) (R : list obj) :
  forall w : World,
    let w' := foldl (Collection.set_one c o) w R in
    exists added,
      members w' c = members w c ++ added
      /\ idCounter w <= idCounter w'
      /\ (Collection.opt_add o = false ->
          added = [] /\ idCounter w' = idCounter w)
      /\ (Collection.opt_change o = false ->
          forall x, x <= idCounter w -> objs w' x = objs w x).
Proof.
  induction R as [|r R IH]; intros w; simpl.
  - exists []. rewrite app_nil_r. repeat split; done.
  - destruct (set_one_members c o w r) as (a1 & Hm1 & Hle1 & Hadd1 & Hch1).
    destruct (IH (Collection.set_one c o w r))
      as (a2 & Hm2 & Hle2 & Hadd2 & Hch2).
    exists (a1 ++ a2). split; [by rewrite Hm2, Hm1, <- app_assoc|].
    split; [lia|]. split.
    + intros Ho. destruct (Hadd1 Ho) as [-> E1], (Hadd2 Ho) as [-> E2].
      split; [done | congruence].
    + intros Ho x Hx. rewrite (Hch2 Ho) by lia. by apply Hch1.
Qed.

Lemma after_removal_spec (c : cref) (R : list obj)
    (o : Collection.SetOptions) (w : World) :
  same_models c w (after_removal c R o w)
  /\ members (after_removal c R o w) c `sublist_of` members w c
  /\ (Collection.opt_remove o = false -> after_removal c R o w = w).
Proof.
  unfold after_removal. destruct (Collection.opt_remove o).
  - destruct (negb _).
    + split; [apply remove_same_models|]. split; [apply remove_sublist|done].
    + split; [apply same_models_refl|]. done.
  - split; [apply same_models_refl|]. done.
Qed.

Lemma has_root_built (c : cref) (a : Collection.AttributesOrModel)
    (w : World) :
  Model.nonempty (coll_url (colls w c)) = true ->
  has_root (Collection.build c a w).1 (Collection.build c a w).2 = true.
Proof.
  intros Hurl. destruct (build_spec c a w) as (Hc & Hown & _).
  unfold has_root. rewrite Hown, Hc, Hurl.
  by case_match.
Qed.

(** [create] up to the point where the request of [save] is out. *)
Lemma create_saves_built (c : cref) (a : Collection.AttributesOrModel)
    (o : Collection.CreateOptions) (w : World) :
  Model.nonempty (coll_url (colls w c)) = true ->
  let built := (Collection.build c a w).1 in
  let w1 := (Collection.build c a w).2 in
  exists req saving,
    Collection.create c a o w
    = Returned (req, saving,
                Collection.mkCreatePending c built
                  (Collection.create_optimistic o))
        (if Collection.create_optimistic o
         then (Collection.add c [Collection.Instance built] w1).2
         else w1)
    /\ Model.req_method req
       = (if Model.isNew (objs w1 built) then Model.POST else Model.PATCH)
    /\ members w1 c = members w c.
Proof.
  intros Hurl built w1.
  pose proof (has_root_built c a w Hurl) as Hroot. fold built w1 in Hroot.
  destruct (build_spec c a w) as (Hc & _). fold w1 in Hc.
  destruct (save_returns built None Model.defaultSaveOptions w1 Hroot)
    as (req & Hsave & Hmethod & _).
  change (after_optimistic_write built None Model.defaultSaveOptions w1)
    with w1 in Hsave.
  exists req, (Model.mkSavePending built (Model.toJS (objs w1 built)) false).
  split.
  - unfold Collection.create.
    rewrite (surjective_pairing (Collection.build c a w)).
    fold built w1. by rewrite Hsave.
  - split; [exact Hmethod|]. unfold members. by rewrite Hc.
Qed.

Lemma set_unfold (c : cref) (R : list obj) (o : Collection.SetOptions)
    (w : World) :
  Collection.set c R o w
  = foldl (Collection.set_one c o) (after_removal c R o w) R.
Proof. reflexivity. Qed.

End ReconcileFacts.

Import ReconcileFacts.

(** X25.  [get] returns the first member whose id is strictly equal to the
    given id, and nothing when no member has it; [mustGet] returns the
    same member and throws exactly when there is none. *)
Theorem get_finds_first_match (c : cref) (v : value) (w : World) :
  match Collection.get c v w with
  | Some l =>
      (exists pre post,
         members w c = pre ++ l :: post
         /\ Forall (fun x => strict_eq (idof w x) v = false) pre)
      /\ strict_eq (idof w l) v = true
      /\ Collection.mustGet c v w = Ok (Some l)
  | None =>
      Forall (fun x => strict_eq (idof w x) v = false) (members w c)
      /\ Collection.get_with c v false w = Ok None
      /\ exists msg, Collection.mustGet c v w = Throw msg
  end.
Proof.
  unfold Collection.mustGet, Collection.get_with.
  destruct (Collection.get c v w) as [l|] eqn:Hget; simpl.
  - unfold Collection.get in Hget.
    apply find_split in Hget as (pre & post & Hm & Hpre & Heq).
    split; [by exists pre, post|]. done.
  - unfold Collection.get in Hget. apply find_none_forall in Hget.
    split; [exact Hget|]. split; [done | by eauto].
Qed.

(** X26.  A resource with a primitive id that no member carries, added to
    a collection of models keyed by [id], can be looked up by that id
    right away: [get] returns the model just built. *)
Theorem get_after_add (c : cref) (r : obj) (w : World) :
  carries_primitive_id r = true ->
  class_primaryKey (model (colls w c) r) = "id" ->
  Forall (fun l => l <= idCounter w) (members w c) ->
  Collection.get c (rid r) w = None ->
  let built := (Collection.add c [Collection.Attributes r] w).1 in
  let w' := (Collection.add c [Collection.Attributes r] w).2 in
  built = [S (idCounter w)]
  /\ Collection.get c (rid r) w' = Some (S (idCounter w))
  /\ Collection.toJS c w' = Collection.toJS c w ++ [r].
Proof.
  intros Hr Hcls Halloc Hget built w'.
  destruct (carries_primitive_id_rid r Hr) as [Hrid Hprim].
  destruct (add_attributes c r w) as (Hm & Hc & _ & Hobjs & Hattrs & Hpk).
  fold w' in Hm, Hc, Hobjs, Hattrs, Hpk.
  split; [done|].
  assert (Hold : forall x, x ∈ members w c -> objs w' x = objs w x).
  { intros x Hx. apply Hobjs. rewrite Forall_forall in Halloc.
    specialize (Halloc x Hx). simpl in Halloc. lia. }
  split.
  - unfold Collection.get. fold (members w' c). rewrite Hm.
    apply find_skip.
    + unfold Collection.get in Hget. apply find_none_forall in Hget.
      fold (members w c) in Hget. rewrite Forall_forall in Hget |- *.
      intros x Hx. rewrite (Hold x Hx). by apply Hget.
    + unfold Model.id. rewrite Hpk, Hcls, Hattrs, Hrid.
      by apply strict_eq_refl.
  - unfold Collection.toJS. rewrite Hm, map_app. f_equal.
    + apply map_ext_in. intros x Hx%list_elem_of_In. by rewrite (Hold x Hx).
    + change (map (fun l => Model.toJS (objs w' l)) [S (idCounter w)])
        with [Model.toJS (objs w' (S (idCounter w)))].
      unfold Model.toJS. by rewrite Hattrs.
Qed.

Lemma get_after_add_witness :
  let r : obj := {[ "id" := VNum 7; "name" := VStr "seven" ]} in
  carries_primitive_id r = true /\
  class_primaryKey (model (colls items_world 0) r) = "id" /\
  Forall (fun l => l <= idCounter items_world) (members items_world 0) /\
  Collection.get 0 (rid r) items_world = None /\
  let built := (Collection.add 0 [Collection.Attributes r] items_world).1 in
  let w' := (Collection.add 0 [Collection.Attributes r] items_world).2 in
  built = [S (idCounter items_world)]
  /\ Collection.get 0 (rid r) w' = Some (S (idCounter items_world))
  /\ Collection.toJS 0 w' = Collection.toJS 0 items_world ++ [r].
Proof.
  intros r.
  assert (H : Forall (fun l => l <= idCounter items_world)
                (members items_world 0))
    by (apply (bool_decide_unpack _); vm_compute; exact I).
  split; [reflexivity|]. split; [reflexivity|]. split; [exact H|].
  split; [reflexivity|].
  exact (get_after_add 0 r items_world eq_refl eq_refl H eq_refl).
Defined.

(** X27.  [set] with [remove] disabled keeps every member in place and
    only appends: the old member sequence is a prefix of the new one.
    [set] with [add] disabled builds no model: the new member sequence is
    a subsequence of the old one.  With both disabled the member sequence
    does not change. *)
Theorem set_with_remove_or_add_disabled (c : cref) (R : list obj)
    (o : Collection.SetOptions) (w : World) :
  let w' := Collection.set c R o w in
  (Collection.opt_remove o = false ->
   exists added, members w' c = members w c ++ added)
  /\ (Collection.opt_add o = false ->
      members w' c `sublist_of` members w c /\ idCounter w' = idCounter w)
  /\ (Collection.opt_remove o = false -> Collection.opt_add o = false ->
      members w' c = members w c).
Proof.
  intros w'. unfold w'. rewrite set_unfold.
  destruct (after_removal_spec c R o w) as (Hsame & Hsub & Hid).
  destruct (set_loop_members c o R (after_removal c R o w))
    as (added & Hm & _ & Hadd & _).
  split; [|split].
  - intros Hr. exists added. by rewrite Hm, (Hid Hr).
  - intros Ha. destruct (Hadd Ha) as [-> Hc].
    rewrite Hm, app_nil_r. split; [done|].
    rewrite Hc. apply Hsame.
  - intros Hr Ha. destruct (Hadd Ha) as [-> _].
    by rewrite Hm, app_nil_r, (Hid Hr).
Qed.

Lemma set_with_remove_or_add_disabled_witness :
  let R : list obj := [ {[ "id" := VNum 2 ]}; {[ "id" := VNum 9 ]} ] in
  let o := Collection.mkSetOptions false true false in
  Collection.opt_remove o = false /\
  Collection.opt_add o = false /\
  members (Collection.set 0 R o items_world) 0 = members items_world 0.
Proof.
  intros R o. split; [reflexivity|]. split; [reflexivity|].
  exact (proj2 (proj2 (set_with_remove_or_add_disabled 0 R o items_world))
           eq_refl eq_refl).
Defined.

(** X28.  [fetch] on a collection changes nothing by itself: it returns
    the GET request on the collection's URL, and throws when [url] is not
    implemented.  Its response is handed to [set] with the same options,
    so fetching with [change] disabled never overwrites the working or
    committed attributes of a model that existed before. *)
Theorem collection_fetch_without_change (c : cref) (query : option obj)
    (o : Collection.SetOptions) (data : list obj) (w w2 : World) :
  world_of (Collection.fetch c query w) = w
  /\ match Collection.fetch c query w with
     | Returned r _ =>
         coll_url (colls w c) = Some (Model.req_url r)
         /\ Model.req_method r = Model.GET
     | Thrown msg _ =>
         coll_url (colls w c) = None
         /\ msg = "You must implement this method"%string
     end
  /\ (Collection.opt_change o = false ->
      forall x, x <= idCounter w2 ->
        attributes (objs (Collection.fetch_then c o data w2) x)
        = attributes (objs w2 x)
        /\ committedAttributes (objs (Collection.fetch_then c o data w2) x)
           = committedAttributes (objs w2 x)).
Proof.
  unfold Collection.fetch, Model.collection_url.
  split; [by destruct (coll_url (colls w c))|]. split.
  - by destruct (coll_url (colls w c)).
  - intros Ho x Hx. unfold Collection.fetch_then. rewrite set_unfold.
    destruct (after_removal_spec c data o w2) as (Hsame & _ & _).
    destruct (set_loop_members c o data (after_removal c data o w2))
      as (added & _ & _ & _ & Hch).
    assert (Hc : idCounter (after_removal c data o w2) = idCounter w2)
      by apply Hsame.
    rewrite (Hch Ho x) by (rewrite Hc; exact Hx).
    by apply (same_models_attributes c).
Qed.

Lemma collection_fetch_without_change_witness :
  let o := Collection.mkSetOptions true false true in
  let data : list obj := [ {[ "id" := VNum 2; "name" := VStr "two" ]} ] in
  Collection.opt_change o = false /\
  2 <= idCounter items_world /\
  attributes (objs (Collection.fetch_then 0 o data items_world) 2)
  = attributes (objs items_world 2).
Proof.
  intros o data. split; [reflexivity|].
  assert (H : 2 <= idCounter items_world) by (vm_compute; lia).
  split; [exact H|].
  exact (proj1 (proj2 (proj2 (collection_fetch_without_change 0 None o data
                                empty_world items_world)) eq_refl 2 H)).
Defined.

(** X29.  [create] without [optimistic] builds the model and sends the
    request of its [save] (POST for a new model) but does not touch the
    member sequence; the model is appended only when the promise
    resolves, and a failure leaves the collection as it is. *)
Theorem create_without_optimistic (c : cref)
    (a : Collection.AttributesOrModel) (o : Collection.CreateOptions)
    (w : World) :
  Collection.create_optimistic o = false ->
  Model.nonempty (coll_url (colls w c)) = true ->
  let built := (Collection.build c a w).1 in
  exists req saving p w1,
    Collection.create c a o w = Returned (req, saving, p) w1
    /\ Model.req_method req
       = (if Model.isNew (objs w1 built) then Model.POST else Model.PATCH)
    /\ members w1 c = members w c
    /\ (forall w2,
          members (Collection.create_then p w2) c = members w2 c ++ [built])
    /\ (forall w2, Collection.create_catch p w2 = w2).
Proof.
  intros Ho Hurl built.
  destruct (create_saves_built c a o w Hurl) as (req & saving & Hcreate & Hm & Hmem).
  rewrite Ho in Hcreate. fold built in Hcreate, Hm.
  eexists req, saving, _, _. split; [exact Hcreate|].
  split; [exact Hm|]. split; [exact Hmem|]. split; [|done].
  intros w2. apply add_instance.
Qed.

Lemma create_without_optimistic_witness :
  let a := Collection.Attributes {[ "name" := VStr "x" ]} in
  let o := Collection.mkCreateOptions false in
  Collection.create_optimistic o = false /\
  Model.nonempty (coll_url (colls items_world 0)) = true /\
  let built := (Collection.build 0 a items_world).1 in
  exists req saving p w1,
    Collection.create 0 a o items_world = Returned (req, saving, p) w1
    /\ Model.req_method req
       = (if Model.isNew (objs w1 built) then Model.POST else Model.PATCH)
    /\ members w1 0 = members items_world 0
    /\ (forall w2,
          members (Collection.create_then p w2) 0 = members w2 0 ++ [built])
    /\ (forall w2, Collection.create_catch p w2 = w2).
Proof.
  intros a o. split; [reflexivity|]. split; [reflexivity|].
  exact (create_without_optimistic 0 a o items_world eq_refl eq_refl).
Defined.

(** X30.  [create] with [optimistic] appends the built model to the member
    sequence right away; success changes nothing more, and on failure the
    model is taken out again and its owner is cleared, which gives back
    the member sequence from before the call when nothing else touched
    it. *)
Theorem create_optimistic_appends (c : cref)
    (a : Collection.AttributesOrModel) (o : Collection.CreateOptions)
    (w : World) :
  Collection.create_optimistic o = true ->
  Model.nonempty (coll_url (colls w c)) = true ->
  let built := (Collection.build c a w).1 in
  built ∉ members w c ->
  exists req saving p w1,
    Collection.create c a o w = Returned (req, saving, p) w1
    /\ members w1 c = members w c ++ [built]
    /\ (forall w2, Collection.create_then p w2 = w2)
    /\ members (Collection.create_catch p w1) c = members w c
    /\ collection (objs (Collection.create_catch p w1) built) = None.
Proof.
  intros Ho Hurl built Hnot.
  destruct (create_saves_built c a o w Hurl) as (req & saving & Hcreate & _ & Hmem).
  rewrite Ho in Hcreate. fold built in Hcreate.
  set (w0 := (Collection.build c a w).2) in *.
  set (w1 := (Collection.add c [Collection.Instance built] w0).2) in *.
  assert (Hm1 : members w1 c = members w c ++ [built]).
  { unfold w1. by rewrite add_instance, Hmem. }
  assert (Hown : collection (objs w1 built) = Some c).
  { destruct (add_spec c [Collection.Instance built] w0) as (_ & _ & Hall & _).
    fold w1 in Hall. by apply Forall_cons in Hall as [Hall _]. }
  eexists req, saving, _, w1. split; [exact Hcreate|].
  split; [exact Hm1|]. split; [done|].
  split.
  - etrans; [exact (remove_owned_member c built w1 (members w c) [] Hown Hm1
                      Hnot)|].
    apply app_nil_r.
  - exact (remove_one_owner c built w1 Hown).
Qed.

Lemma create_optimistic_appends_witness :
  let a := Collection.Attributes {[ "name" := VStr "x" ]} in
  let o := Collection.defaultCreateOptions in
  Collection.create_optimistic o = true /\
  Model.nonempty (coll_url (colls items_world 0)) = true /\
  let built := (Collection.build 0 a items_world).1 in
  (built ∉ members items_world 0) /\
  exists req saving p w1,
    Collection.create 0 a o items_world = Returned (req, saving, p) w1
    /\ members w1 0 = members items_world 0 ++ [built]
    /\ (forall w2, Collection.create_then p w2 = w2)
    /\ members (Collection.create_catch p w1) 0 = members items_world 0
    /\ collection (objs (Collection.create_catch p w1) built) = None.
Proof.
  intros a o.
  assert (Hnot : (Collection.build 0 a items_world).1 ∉ members items_world 0)
    by (apply (bool_decide_unpack _); vm_compute; exact I).
  split; [reflexivity|]. split; [reflexivity|]. split; [exact Hnot|].
  exact (create_optimistic_appends 0 a o items_world eq_refl eq_refl Hnot).
Defined.
